(** * Event Management SPA: session store, domain operations and router

    A shallow embedding of the client code of the event-management single
    page application (auth.js, controllers/authController.js,
    controllers/eventController.js, models/event.js, router.js) together
    with the properties its specification states about it.

    The JavaScript is asynchronous but single threaded; every function is
    modelled as a state transformer over a [World] that holds the browser
    (localStorage, location, history, the pieces of the document the code
    touches), the remote REST store and the transport.  Interleavings of
    several pending handlers are outside the model. *)

From stdpp Require Import gmap strings list fin_maps.
From Stdlib Require Import ZArith Lia Ascii.

Local Open Scope string_scope.
Local Open Scope list_scope.

(** ** Data model *)

(** Record identifiers as JSON carries them: a number or a string.  [1] and
    ["1"] are different values for [===] and for [Array.prototype.includes]. *)
Inductive Id : Type :=
| IdNum (n : Z)
| IdStr (s : string).

#[global] Instance Id_eq_dec : EqDecision Id.
Proof. solve_decision. Defined.

(** models/user.js and the records of the [users] collection. *)
Module User.
Record t : Type := mk
  { id : Id; email : string; password : string; role : string }.
End User.

(** The object written by [saveUserInfo]: the user without its password. *)
Module Session.
Record t : Type := mk { id : Id; email : string; role : string }.
End Session.

(** models/event.js.  [capacity] is the value of [parseInt(capacity, 10)]
    after a trip through JSON: [None] is the [null] that [NaN] serialises
    to.  The id of an event is assigned by the store and is the key under
    which the store keeps it. *)
Module Event.
Record t : Type := mk
  { title : string; description : string; location : string;
    date : string; capacity : option Z; attendees : list Id }.

(** [constructor(title, description, location, date, capacity)], given
    the result of [parseInt] on its last argument. *)
Definition new (title description location date : string)
    (capacity : option Z) : t :=
  mk title description location date capacity [].

(** A partial event, the body of a PATCH: only the fields present. *)
Record patch : Type := mkPatch
  { p_title : option string; p_description : option string;
    p_location : option string; p_date : option string;
    p_capacity : option (option Z); p_attendees : option (list Id) }.

(** [{ attendees: newAttendees }] *)
Definition attendeesOnly (l : list Id) : patch :=
  mkPatch None None None None None (Some l).
End Event.

(** ** Transport *)

(** The requests of the code modelled here.  [GetView] carries the argument
    of [fetch(viewPath)], [undefined] included.  [GetUsers] carries the
    query of [GET /users] as the store receives it: a filter on the email
    and, when the query has one, a filter on the password. *)
Inductive Request : Type :=
| GetView (viewPath : option string)
| GetUsers (email : string) (password : option string)
| GetEvent (eventId : string)
| PatchEvent (eventId : string) (body : Event.patch).

Inductive Body : Type :=
| Html (src : string)
| JsonUsers (us : list User.t)
| JsonEvent (e : Event.t)
| Unparsable.

Record Response : Type := mkResponse { ok : bool; body : Body }.

(** What can go wrong with one request: [fetch] rejects, or the response
    arrives with a status outside 200-299. *)
Inductive Fault : Type := NetworkError | HttpError.

(** The links [renderNavbar] writes, by their [href]. *)
Definition NavLinks : Type := list string.

(** The function [handleLocation] runs once the markup is in place. *)
Inductive Initializer : Type :=
| initializeLoginForm
| initializeRegisterForm
| initializeAdminDashboard (user : option Session.t)
| initializeVisitorDashboard (user : option Session.t).

(** ** The world the code runs in *)

Record World : Type := mkWorld
  { (* browser *)
    localStorage : gmap string Session.t;
    pathname : string;
    history : list string;
    (* document *)
    mainNav : option NavLinks;        (* [None]: no #main-nav element *)
    dashboardView : bool;             (* body.classList has dashboard-view *)
    innerHTML : Body;                 (* content of #app-root *)
    logoutBtn : bool;                 (* #logout-btn is in the document *)
    initialized : list Initializer;   (* initializers run so far *)
    alerts : list string;
    console : list string;
    (* remote store *)
    users : list User.t;
    events : gmap string Event.t;
    (* transport: the fate of the coming requests, and those sent so far *)
    faults : list (option Fault);
    requests : list Request }.

Definition set_localStorage (f : gmap string Session.t → gmap string Session.t)
    (w : World) : World :=
  mkWorld (f (localStorage w)) (pathname w) (history w) (mainNav w)
    (dashboardView w) (innerHTML w) (logoutBtn w) (initialized w) (alerts w)
    (console w) (users w) (events w) (faults w) (requests w).

(** [window.history.pushState({}, path, path)] for an absolute path of the
    application, as the router passes them: the location becomes that path.
    The browser resolves any other URL (a relative one, one with a query or
    a fragment) and refuses one of another origin; these are not modelled,
    and the statements about [navigateTo] are for the paths of the
    application ([appPaths]). *)
Definition set_location (p : string) (w : World) : World :=
  mkWorld (localStorage w) p (history w ++ [p]) (mainNav w)
    (dashboardView w) (innerHTML w) (logoutBtn w) (initialized w) (alerts w)
    (console w) (users w) (events w) (faults w) (requests w).

Definition set_mainNav (n : option NavLinks) (w : World) : World :=
  mkWorld (localStorage w) (pathname w) (history w) n
    (dashboardView w) (innerHTML w) (logoutBtn w) (initialized w) (alerts w)
    (console w) (users w) (events w) (faults w) (requests w).

Definition set_dashboardView (b : bool) (w : World) : World :=
  mkWorld (localStorage w) (pathname w) (history w) (mainNav w)
    b (innerHTML w) (logoutBtn w) (initialized w) (alerts w)
    (console w) (users w) (events w) (faults w) (requests w).

(** Assigning [appRoot.innerHTML] replaces every child of #app-root, the
    logout button included ([addLogoutButton] prepends it there). *)
Definition set_innerHTML (b : Body) (w : World) : World :=
  mkWorld (localStorage w) (pathname w) (history w) (mainNav w)
    (dashboardView w) b false (initialized w) (alerts w)
    (console w) (users w) (events w) (faults w) (requests w).

Definition set_logoutBtn (b : bool) (w : World) : World :=
  mkWorld (localStorage w) (pathname w) (history w) (mainNav w)
    (dashboardView w) (innerHTML w) b (initialized w) (alerts w)
    (console w) (users w) (events w) (faults w) (requests w).

Definition add_initialized (i : Initializer) (w : World) : World :=
  mkWorld (localStorage w) (pathname w) (history w) (mainNav w)
    (dashboardView w) (innerHTML w) (logoutBtn w) (initialized w ++ [i])
    (alerts w) (console w) (users w) (events w) (faults w) (requests w).

Definition add_alert (msg : string) (w : World) : World :=
  mkWorld (localStorage w) (pathname w) (history w) (mainNav w)
    (dashboardView w) (innerHTML w) (logoutBtn w) (initialized w)
    (alerts w ++ [msg]) (console w) (users w) (events w) (faults w)
    (requests w).

Definition add_console (msg : string) (w : World) : World :=
  mkWorld (localStorage w) (pathname w) (history w) (mainNav w)
    (dashboardView w) (innerHTML w) (logoutBtn w) (initialized w)
    (alerts w) (console w ++ [msg]) (users w) (events w) (faults w)
    (requests w).

Definition set_events (f : gmap string Event.t → gmap string Event.t)
    (w : World) : World :=
  mkWorld (localStorage w) (pathname w) (history w) (mainNav w)
    (dashboardView w) (innerHTML w) (logoutBtn w) (initialized w) (alerts w)
    (console w) (users w) (f (events w)) (faults w) (requests w).

(** Sending a request uses up the head of [faults] and logs the request. *)
Definition sent (r : Request) (w : World) : World :=
  mkWorld (localStorage w) (pathname w) (history w) (mainNav w)
    (dashboardView w) (innerHTML w) (logoutBtn w) (initialized w) (alerts w)
    (console w) (users w) (events w) (tail (faults w)) (requests w ++ [r]).

(** ** Computations: state, exceptions, and fuel for the router's recursion *)

Inductive Outcome (A : Type) : Type :=
| Return (a : A)
| Throw (error : string)
| OutOfFuel.
Arguments Return {A} a.
Arguments Throw {A} error.
Arguments OutOfFuel {A}.

Definition M (A : Type) : Type := World → Outcome A * World.

#[global] Instance M_ret : MRet M := λ A a w, (Return a, w).

#[global] Instance M_bind : MBind M := λ A B f m w,
  match m w with
  | (Return a, w') => f a w'
  | (Throw e, w') => (Throw e, w')
  | (OutOfFuel, w') => (OutOfFuel, w')
  end.

Definition throw {A} (error : string) : M A := λ w, (Throw error, w).
Definition outOfFuel {A} : M A := λ w, (OutOfFuel, w).
Definition get {A} (f : World → A) : M A := λ w, (Return (f w), w).
Definition modify (f : World → World) : M unit := λ w, (Return (), f w).

(** [try { m } catch (error) { handler }] *)
Definition tryCatch {A} (m : M A) (handler : string → M A) : M A := λ w,
  match m w with
  | (Throw e, w') => handler e w'
  | r => r
  end.

(** Calling an async function without [await]: a rejection of its promise
    does not reach the caller. *)
Definition detached (m : M unit) : M unit :=
  tryCatch m (λ e, modify (add_console ("Uncaught (in promise) " +:+ e))).

Definition alert (msg : string) : M unit := modify (add_alert msg).
Definition console_log (msg : string) : M unit := modify (add_console msg).

(** ** The remote store

    The REST service behind [http://localhost:3000] is not part of the
    client; this is its contract as the client relies on it: a filtered
    list of users, one event by id (404 when absent), and a PATCH that
    merges the provided fields into the stored record and answers with the
    updated record.  Views are the static files of the route table.

    The route table names the views by relative URLs, which the browser
    resolves against the URL of the page.  The answer given here is the one
    for a page at the root level ([rootLevel]: one segment, as all the paths
    of the application are), where they resolve to the files; from a deeper
    path the same [fetch] asks for another URL.  Statements about what an
    unknown path shows are for root-level paths. *)

Definition applyPatch (p : Event.patch) (e : Event.t) : Event.t :=
  Event.mk
    (default (Event.title e) (Event.p_title p))
    (default (Event.description e) (Event.p_description p))
    (default (Event.location e) (Event.p_location p))
    (default (Event.date e) (Event.p_date p))
    (default (Event.capacity e) (Event.p_capacity p))
    (default (Event.attendees e) (Event.p_attendees p)).

Definition viewFiles : list string :=
  [ "src/views/home.html"; "src/views/login.html"; "src/views/register.html";
    "src/views/admin-dashboard.html"; "src/views/visitor-dashboard.html";
    "src/views/404.html" ].

(** The filter of [GET /users?email=..&password=..]: equality on each field
    the query names. *)
Definition credentialsMatch (email : string) (password : option string)
    (u : User.t) : bool :=
  bool_decide (User.email u = email)
  && match password with
     | Some password => bool_decide (User.password u = password)
     | None => true
     end.

(** The users the query selects. *)
Definition matchingUsers (email : string) (password : option string)
    (w : World) : list User.t :=
  List.filter (credentialsMatch email password) (users w).

Definition serve (r : Request) (w : World) : Response * World :=
  match r with
  | GetView (Some src) =>
      if bool_decide (src ∈ viewFiles) then (mkResponse true (Html src), w)
      else (mkResponse false Unparsable, w)
  | GetView None => (mkResponse false Unparsable, w)
  | GetUsers email password =>
      (mkResponse true (JsonUsers (matchingUsers email password w)), w)
  | GetEvent eventId =>
      match events w !! eventId with
      | Some e => (mkResponse true (JsonEvent e), w)
      | None => (mkResponse false Unparsable, w)
      end
  | PatchEvent eventId p =>
      match events w !! eventId with
      | Some e =>
          let e' := applyPatch p e in
          (mkResponse true (JsonEvent e'), set_events <[eventId := e']> w)
      | None => (mkResponse false Unparsable, w)
      end
  end.

(** The fault, if any, that the [k]-th coming request meets; past the end
    of the schedule every request goes through. *)
Definition faultAt (k : nat) (w : World) : option Fault :=
  default None (faults w !! k).

(** [fetch]: a request that meets a fault never reaches the store. *)
Definition fetch (r : Request) : M Response := λ w,
  match faultAt 0 w with
  | Some NetworkError => (Throw "TypeError: Failed to fetch", sent r w)
  | Some HttpError => (Return (mkResponse false Unparsable), sent r w)
  | None => let '(resp, w') := serve r (sent r w) in (Return resp, w')
  end.

(** [response.json()] where the code goes on to use the value as an event. *)
Definition json_event (resp : Response) : M Event.t :=
  match body resp with
  | JsonEvent e => mret e
  | _ => throw "SyntaxError: Unexpected token"
  end.

(** [response.json()] where the code goes on to use the value as a list of
    users. *)
Definition json_users (resp : Response) : M (list User.t) :=
  match body resp with
  | JsonUsers us => mret us
  | _ => throw "SyntaxError: Unexpected token"
  end.

(** ** auth.js *)

Definition USER_INFO_KEY : string := "loggedInUser".

(** The stored text is always [JSON.stringify] of an [{id, email, role}]
    object, the only thing this code writes under the key; the map keeps
    the object that [JSON.parse] gives back. *)
Definition saveUserInfo (user : User.t) : M unit :=
  let userToStore :=
    Session.mk (User.id user) (User.email user) (User.role user) in
  modify (set_localStorage <[USER_INFO_KEY := userToStore]>).

Definition logOut : M unit :=
  modify (set_localStorage (delete USER_INFO_KEY)).

Definition isAuthenticated : M bool :=
  get (λ w, bool_decide (localStorage w !! USER_INFO_KEY ≠ None)).

Definition getCurrentUser : M (option Session.t) :=
  get (λ w, localStorage w !! USER_INFO_KEY).

(** ** controllers/authController.js *)

(** The text of a URL up to its first [#].  What follows is the fragment,
    which the browser keeps to itself: it is not part of the request. *)
Fixpoint beforeFragment (s : string) : string :=
  match s with
  | EmptyString => EmptyString
  | String c s =>
      if Ascii.eqb c "#"%char then EmptyString else String c (beforeFragment s)
  end.

Fixpoint hasFragment (s : string) : bool :=
  match s with
  | EmptyString => false
  | String c s => Ascii.eqb c "#"%char || hasFragment s
  end.

(** The characters that stand for themselves in a query, whoever decodes
    it: letters, digits and [- . _ ~ @]. *)
Definition plainChar (c : Ascii.ascii) : bool :=
  let n := Ascii.nat_of_ascii c in
  ((48 <=? n) && (n <=? 57))%nat
  || ((65 <=? n) && (n <=? 90))%nat
  || ((97 <=? n) && (n <=? 122))%nat
  || bool_decide (c ∈ ["-"; "."; "_"; "~"; "@"]%char).

Fixpoint urlPlain (s : string) : bool :=
  match s with
  | EmptyString => true
  | String c s => plainChar c && urlPlain s
  end.

(** The request made by
    [fetch(`${USERS_API_URL}?email=${email}&password=${password}`)].  The
    two values go into the URL as typed, without [encodeURIComponent].  The
    URL ends at the first [#] typed: a [#] in the password cuts the
    password filter short, a [#] in the email removes it.  Where what is
    sent is [urlPlain] the store reads these very values.  Other characters
    ([&], [=], [+], [%], a space, ..) reach the store's own decoding of the
    query, which is not modelled: the statements about [handleLogin] are
    for values that are sent plain. *)
Definition loginQuery (email password : string) : Request :=
  if hasFragment email then GetUsers (beforeFragment email) None
  else GetUsers email (Some (beforeFragment password)).

Definition handleLogin (email password : string) : M bool :=
  tryCatch
    (response ← fetch (loginQuery email password);
     if negb (ok response) then throw "Login request failed." else
     users ← json_users response;
     match users with
     | [user] =>
         saveUserInfo user;;
         console_log "Login successful for user: ";;
         mret true
     | _ =>
         console_log "Login failed: Invalid credentials.";;
         mret false
     end)
    (λ error, console_log ("Error during login: " +:+ error);; mret false).

(** ** controllers/eventController.js *)

(** [event.attendees.length >= event.capacity], where a [null] capacity
    converts to [0]. *)
Definition isFull (event : Event.t) : bool :=
  (default 0 (Event.capacity event) <=? Z.of_nat (length (Event.attendees event)))%Z.

Definition registerForEvent (eventId : string) : M (option Event.t) :=
  currentUser ← getCurrentUser;
  match currentUser with
  | None => console_log "No user is logged in.";; mret None
  | Some currentUser =>
      tryCatch
        (eventResponse ← fetch (GetEvent eventId);
         if negb (ok eventResponse)
         then throw "Could not fetch event to register." else
         event ← json_event eventResponse;
         if isFull event then
           alert "This event is full.";; mret None
         else if bool_decide (Session.id currentUser ∈ Event.attendees event) then
           alert "You are already registered for this event.";; mret None
         else
           let newAttendees := Event.attendees event ++ [Session.id currentUser] in
           response ← fetch (PatchEvent eventId (Event.attendeesOnly newAttendees));
           if negb (ok response) then throw "Failed to register for event." else
           updated ← json_event response;
           mret (Some updated))
        (λ error,
           console_log ("Error registering for event: " +:+ error);; mret None)
  end.

Definition unregisterFromEvent (eventId : string) : M (option Event.t) :=
  currentUser ← getCurrentUser;
  match currentUser with
  | None => mret None
  | Some currentUser =>
      tryCatch
        (eventResponse ← fetch (GetEvent eventId);
         if negb (ok eventResponse)
         then throw "Could not fetch event to unregister." else
         event ← json_event eventResponse;
         let newAttendees :=
           filter (λ id, id ≠ Session.id currentUser) (Event.attendees event) in
         response ← fetch (PatchEvent eventId (Event.attendeesOnly newAttendees));
         if negb (ok response) then throw "Failed to unregister from event." else
         updated ← json_event response;
         mret (Some updated))
        (λ error,
           console_log ("Error unregistering from event: " +:+ error);; mret None)
  end.

(** ** router.js *)

Definition routes : gmap string string :=
  list_to_map
    [ ("/", "src/views/home.html");
      ("/login", "src/views/login.html");
      ("/register", "src/views/register.html");
      ("/admin-dashboard", "src/views/admin-dashboard.html");
      ("/visitor-dashboard", "src/views/visitor-dashboard.html");
      ("/404", "src/views/404.html") ].

(** [user.role]: a TypeError when [user] is [null]. *)
Definition roleOf (user : option Session.t) : M string :=
  match user with
  | Some u => mret (Session.role u)
  | None => throw "TypeError: Cannot read properties of null (reading 'role')"
  end.

(** [isAuth && user.role === role], with the short circuit of [&&]. *)
Definition authAs (isAuth : bool) (user : option Session.t) (role : string)
    : M bool :=
  if isAuth then r ← roleOf user; mret (r =? role) else mret false.

Definition loadView (viewPath : option string) : M unit :=
  tryCatch
    (response ← fetch (GetView viewPath);
     if negb (ok response) then throw "View not found" else
     modify (set_innerHTML (body response)))
    (λ error,
       console_log ("Failed to load view: " +:+ error);;
       response404 ← fetch (GetView (routes !! "/404"));
       modify (set_innerHTML (body response404))).

Definition renderNavbar : M unit :=
  nav ← get mainNav;
  match nav return M unit with
  | None => mret ()
  | Some _ =>
      isAuth ← isAuthenticated;
      user ← getCurrentUser;
      if isAuth : bool then
        let navLinks := ["/"] in
        isAdmin ← authAs true user "administrator";
        if isAdmin : bool then
          modify (set_mainNav (Some (navLinks ++ ["/admin-dashboard"])))
        else
          isVisitor ← authAs true user "visitor";
          if isVisitor : bool then
            modify (set_mainNav (Some (navLinks ++ ["/visitor-dashboard"])))
          else modify (set_mainNav (Some navLinks))
      else modify (set_mainNav (Some ["/"; "/login"; "/register"]))
  end.

Definition isDashboardPath (path : string) : bool :=
  (path =? "/admin-dashboard") || (path =? "/visitor-dashboard").

Definition updateBodyClass (path : string) : M unit :=
  modify (set_dashboardView (isDashboardPath path)).

(** The click listener of the button is [logoutClick] below. *)
Definition addLogoutButton : M unit :=
  present ← get logoutBtn;
  if present : bool then mret () else modify (set_logoutBtn true).

(** [navigateTo], given the location handler it calls: [pushState], then
    [handleLocation()] without [await]. *)
Definition navigateTo_with (handleLocation : M unit) (path : string) : M unit :=
  modify (set_location path);;
  detached handleLocation.

(** The last three steps of [handleLocation]: load the view, call the
    initializer if one was assigned, add the logout button if
    authenticated.  The call of the initializer is recorded in
    [initialized].  The initializers of the two forms attach a listener and
    do nothing else ([loginFormSubmit] is the listener of the login form).
    Those of the dashboards also start loading the list of events when they
    find their elements in the markup; that request and the cards drawn
    from its answer are not followed here.  The theorems about a cycle
    that opens a dashboard say which views are requested and leave any
    other request open. *)
Definition render (isAuth : bool) (viewPath : option string)
    (viewInitializer : option Initializer) : M unit :=
  loadView viewPath;;
  match viewInitializer with
  | Some init => modify (add_initialized init)
  | None => mret ()
  end;;
  if isAuth then addLogoutButton else mret ().

(** [handleLocation].  [navigateTo] calls it back, so it takes fuel: the
    number of location handlers that may still start; three are always
    enough.  A branch that ends in [return] after [navigateTo] does not
    reach [render]. *)
Fixpoint handleLocation (fuel : nat) : M unit :=
  match fuel with
  | O => outOfFuel
  | S fuel =>
      let navigateTo := navigateTo_with (handleLocation fuel) in
      path ← get pathname;
      isAuth ← isAuthenticated;
      user ← getCurrentUser;
      renderNavbar;;
      updateBodyClass path;;
      if negb isAuth
         && ((path =? "/admin-dashboard") || (path =? "/visitor-dashboard")) then
        console_log "Access Denied: Not authenticated. Redirecting to /login.";;
        navigateTo "/login"
      else if isAuth && ((path =? "/login") || (path =? "/register")) then
        role ← roleOf user;
        let dashboardPath :=
          if role =? "administrator" then "/admin-dashboard"
          else "/visitor-dashboard" in
        navigateTo dashboardPath
      else if (path =? "/") || (path =? "/home") then
        render isAuth (routes !! "/") None
      else if path =? "/login" then
        render isAuth (routes !! "/login") (Some initializeLoginForm)
      else if path =? "/register" then
        render isAuth (routes !! "/register") (Some initializeRegisterForm)
      else if path =? "/admin-dashboard" then
        isAdmin ← authAs isAuth user "administrator";
        if isAdmin : bool then
          render isAuth (routes !! "/admin-dashboard")
            (Some (initializeAdminDashboard user))
        else
          isVisitor ← authAs isAuth user "visitor";
          if isVisitor : bool then navigateTo "/visitor-dashboard"
          else render isAuth None None
      else if path =? "/visitor-dashboard" then
        isVisitor ← authAs isAuth user "visitor";
        if isVisitor : bool then
          render isAuth (routes !! "/visitor-dashboard")
            (Some (initializeVisitorDashboard user))
        else navigateTo (if isAuth then "/admin-dashboard" else "/login")
      else
        render isAuth (routes !! "/404") None
  end.

Definition navigateTo (fuel : nat) (path : string) : M unit :=
  navigateTo_with (handleLocation fuel) path.

(** The click handler [addLogoutButton] attaches to the logout button. *)
Definition logoutClick (fuel : nat) : M unit :=
  logOut;;
  renderNavbar;;
  navigateTo fuel "/login".


(** ** Notions used to state the properties *)

(** The PATCH [registerForEvent] sends for user [uid] after fetching [e]. *)
Definition enrollRequest (eventId : string) (uid : Id) (e : Event.t) : Request :=
  PatchEvent eventId (Event.attendeesOnly (Event.attendees e ++ [uid])).

(** The event as [registerForEvent] leaves it: the user's id appended. *)
Definition enrolled (uid : Id) (e : Event.t) : Event.t :=
  applyPatch (Event.attendeesOnly (Event.attendees e ++ [uid])) e.

(** [|attendees| ≤ capacity], read as the comparison in [isFull] reads it. *)
Definition withinCapacity (e : Event.t) : Prop :=
  (Z.of_nat (length (Event.attendees e)) ≤ default 0 (Event.capacity e))%Z.

(** No coming request meets a fault. *)
Definition reliable (w : World) : Prop :=
  Forall (λ f, f = None) (faults w).

(** Sequential enrolment: each user in turn is the logged-in user and
    presses the enrol button of the event. *)
Fixpoint enrollAll (eventId : string) (us : list User.t)
    : M (list (option Event.t)) :=
  match us with
  | [] => mret []
  | u :: us =>
      saveUserInfo u;;
      r ← registerForEvent eventId;
      rs ← enrollAll eventId us;
      mret (r :: rs)
  end.

(** [capacityRespected w]: every stored event is within its capacity. *)
Definition capacityRespected (w : World) : Prop :=
  map_Forall (λ _ e, withinCapacity e) (events w).

(** The dashboard that matches a role, if the role is one of the two. *)
Definition roleDashboard (role : string) : option string :=
  if role =? "administrator" then Some "/admin-dashboard"
  else if role =? "visitor" then Some "/visitor-dashboard"
  else None.

(** The initializer [handleLocation] assigns on a dashboard path. *)
Definition dashboardInitializer (path : string) (user : option Session.t)
    : Initializer :=
  if path =? "/admin-dashboard" then initializeAdminDashboard user
  else initializeVisitorDashboard user.

(** [navigated hops viewPath init w w']: from [w] to [w'] the browser went
    through the redirects [hops], in this order, and then loaded
    [viewPath] with [init] as its initializer.  The session is as before;
    the only requests sent are for [viewPath] and, if that failed, for the
    not-found view; #app-root holds what it held, the markup of
    [viewPath], or what the fallback gave; and no initializer but [init]
    has run.  When the request for a served view meets no fault, its
    markup is in #app-root and [init] has run. *)
Definition navigated (hops : list string) (viewPath : option string)
    (init : option Initializer) (w w' : World) : Prop :=
  history w' = history w ++ hops
  ∧ pathname w' = default (pathname w) (last hops)
  ∧ localStorage w' = localStorage w
  ∧ (∃ rs, requests w' = requests w ++ GetView viewPath :: rs
           ∧ (rs = [] ∨ rs = [GetView (Some "src/views/404.html")]))
  ∧ (innerHTML w' = innerHTML w
     ∨ innerHTML w' = Unparsable
     ∨ innerHTML w' = Html "src/views/404.html"
     ∨ ∃ src, viewPath = Some src ∧ innerHTML w' = Html src)
  ∧ (initialized w' = initialized w
     ∨ ∃ i, init = Some i ∧ initialized w' = initialized w ++ [i])
  ∧ (∀ src, faultAt 0 w = None → viewPath = Some src → src ∈ viewFiles →
       innerHTML w' = Html src
       ∧ initialized w' = initialized w ++ option_list init).

(** [settles fuel hops viewPath init w]: started in [w] with [fuel], the
    location handler comes to an end (it returns, or the loading of the
    view throws) after the redirects [hops]. *)
Definition settles (fuel : nat) (hops : list string) (viewPath : option string)
    (init : option Initializer) (w : World) : Prop :=
  ∃ res w',
    handleLocation fuel w = (res, w')
    ∧ res ≠ OutOfFuel
    ∧ navigated hops viewPath init w w'.

(** A page at the root level: [/] followed by one segment without [/]. *)
Fixpoint hasSlash (s : string) : bool :=
  match s with
  | EmptyString => false
  | String c s => Ascii.eqb c "/"%char || hasSlash s
  end.

Definition rootLevel (path : string) : bool :=
  match path with
  | String c rest => Ascii.eqb c "/"%char && negb (hasSlash rest)
  | EmptyString => false
  end.

(** The paths of the application: those the router passes to [navigateTo]
    and the links [renderNavbar] draws, with the alias of the home page. *)
Definition appPaths : list string :=
  [ "/"; "/home"; "/login"; "/register"; "/admin-dashboard";
    "/visitor-dashboard" ].

(** ** Sample data *)

Definition admin : User.t :=
  User.mk (IdNum 1) "admin@events.com" "admin123" "administrator".
Definition visitor1 : User.t :=
  User.mk (IdNum 2) "visitor1@test.com" "visitor123" "visitor".
Definition visitor2 : User.t :=
  User.mk (IdStr "a3f") "visitor2@test.com" "visitor456" "visitor".

(** An account whose role is neither of the two the code knows. *)
Definition moderator : User.t :=
  User.mk (IdNum 9) "moderator@events.com" "mod123" "moderator".

Definition sessionOf (u : User.t) : Session.t :=
  Session.mk (User.id u) (User.email u) (User.role u).

Definition meetup (capacity : Z) (attendees : list Id) : Event.t :=
  Event.mk "Meetup" "Monthly meetup" "Main hall" "2025-07-01T18:00"
    (Some capacity) attendees.

(** A browser at [path], logged in as [session] if any, in front of a
    store with the two sample accounts and the given events. *)
Definition sampleWorld (session : option User.t) (path : string)
    (evs : gmap string Event.t) (fs : list (option Fault)) : World :=
  mkWorld
    match session with
    | Some u => {[ USER_INFO_KEY := sessionOf u ]}
    | None => ∅
    end
    path [] (Some []) false Unparsable false [] [] [] [admin; visitor1] evs fs [].

(** The visitor in front of event 7, with room left and sold out. *)
Definition roomy : World :=
  sampleWorld (Some visitor1) "/visitor-dashboard"
    {[ "7" := meetup 3 [IdNum 5] ]} [].
Definition soldOut : World :=
  sampleWorld (Some visitor1) "/visitor-dashboard"
    {[ "7" := meetup 1 [IdNum 5] ]} [].
(** * More of the client *)

(** ** controllers/eventController.js: [updateEvent] *)

Definition updateEvent (eventId : string) (eventData : Event.patch)
    : M (option Event.t) :=
  tryCatch
    (response ← fetch (PatchEvent eventId eventData);
     if negb (ok response) then throw "Failed to update event." else
     updated ← json_event response;
     mret (Some updated))
    (λ error, console_log ("Error updating event: " +:+ error);; mret None).

(** ** router.js: what the listeners of the views do *)

(** [handleEventFormSubmit], the [eventData] object built from the form:
    [{ title, description, location, capacity: parseInt(capacity, 10), date }].
    [capacity] is the result of [parseInt], [None] for [NaN]. *)
Definition formEventData (title description location : string)
    (capacity : option Z) (date : string) : Event.patch :=
  Event.mkPatch (Some title) (Some description) (Some location) (Some date)
    (Some capacity) None.

(** The submit listener [initializeLoginForm] attaches to the login form,
    given the values of the two inputs. *)
Definition loginFormSubmit (fuel : nat) (email password : string) : M unit :=
  success ← handleLogin email password;
  if success : bool then
    user ← getCurrentUser;
    role ← roleOf user;
    let dashboardPath :=
      if role =? "administrator" then "/admin-dashboard"
      else "/visitor-dashboard" in
    navigateTo fuel dashboardPath
  else alert "Invalid credentials. Please try again.".

(** The button [renderAvailableEvents] draws on the card of an event. *)
Record EnrollButton : Type := mkEnrollButton
  { disabled : bool; label : string }.

(** [event.attendees.length < event.capacity], a [null] capacity read as [0]. *)
Definition hasCapacity (event : Event.t) : bool :=
  (Z.of_nat (length (Event.attendees event)) <? default 0 (Event.capacity event))%Z.

Definition enrollButton (event : Event.t) (currentUser : Session.t)
    : EnrollButton :=
  let isRegistered :=
    bool_decide (Session.id currentUser ∈ Event.attendees event) in
  mkEnrollButton
    (isRegistered || negb (hasCapacity event))
    (if isRegistered then "Already Registered"
     else if hasCapacity event then "Register" else "Full").

(** [renderAvailableEvents]: one card per event, in order, each with the id
    of its event and its button. *)
Definition renderAvailableEvents (events : list (string * Event.t))
    (currentUser : Session.t) : list (string * EnrollButton) :=
  (λ '(eventId, event), (eventId, enrollButton event currentUser)) <$> events.

(** [renderMyEvents]: the events with an Unenroll button, those whose
    attendees include the user; the empty list stands for the paragraph
    shown when there is none. *)
Definition renderMyEvents (events : list (string * Event.t))
    (currentUser : Session.t) : list string :=
  fst <$> filter (λ '(_, event),
                    Session.id currentUser ∈ Event.attendees event) events.

(** ** Further notions *)

(** The event as [unregisterFromEvent] leaves it. *)
Definition withdrawn (uid : Id) (e : Event.t) : Event.t :=
  applyPatch
    (Event.attendeesOnly (filter (λ id, id ≠ uid) (Event.attendees e))) e.

(** No stored event lists an attendee twice. *)
Definition attendeesDistinct (w : World) : Prop :=
  map_Forall (λ _ e, NoDup (Event.attendees e)) (events w).

(** What a visitor can do on the dashboard, as whom and to which event. *)
Inductive VisitorAction : Type :=
| Enrol (u : User.t) (eventId : string)
| Leave (u : User.t) (eventId : string).

(** Visitors acting one after the other, each logged in for the action. *)
Fixpoint visitorActions (acts : list VisitorAction) : M unit :=
  match acts with
  | [] => mret ()
  | Enrol u eventId :: acts =>
      saveUserInfo u;; registerForEvent eventId;; visitorActions acts
  | Leave u eventId :: acts =>
      saveUserInfo u;; unregisterFromEvent eventId;; visitorActions acts
  end.

(** A view the session may be shown: a dashboard only for its own role. *)
Definition mayView (user : option Session.t) (viewPath : option string)
    : Prop :=
  (viewPath = Some "src/views/admin-dashboard.html" →
     Session.role <$> user = Some "administrator")
  ∧ (viewPath = Some "src/views/visitor-dashboard.html" →
       Session.role <$> user = Some "visitor").

(** The links of the navigation bar for a session. *)
Definition navLinksFor (user : option Session.t) : NavLinks :=
  match user with
  | None => ["/"; "/login"; "/register"]
  | Some u =>
      if Session.role u =? "administrator" then ["/"; "/admin-dashboard"]
      else if Session.role u =? "visitor" then ["/"; "/visitor-dashboard"]
      else ["/"]
  end.

(** [routed w res w']: what every run of the location handler from [w],
    with result [res] and final world [w'], keeps and establishes. *)
Definition routed (w : World) (res : Outcome unit) (w' : World) : Prop :=
  let user := localStorage w !! USER_INFO_KEY in
  localStorage w' = localStorage w
  ∧ users w' = users w
  ∧ events w' = events w
  ∧ alerts w' = alerts w
  ∧ dashboardView w' = isDashboardPath (pathname w')
  ∧ mainNav w' = ((λ _, navLinksFor user) <$> mainNav w)
  ∧ (∃ rs, requests w' = requests w ++ rs
           ∧ Forall (λ r, ∃ v, r = GetView v ∧ mayView user v) rs)
  ∧ (innerHTML w' = innerHTML w
     ∨ innerHTML w' = Unparsable
     ∨ ∃ src, innerHTML w' = Html src ∧ src ∈ viewFiles
              ∧ mayView user (Some src))
  ∧ (faultAt 0 w = None → faultAt 1 w = None →
       res = Return ()
       ∧ logoutBtn w' = bool_decide (is_Some user)
       ∧ ∃ src, src ∈ viewFiles ∧ innerHTML w' = Html src).

(** [chrome w wc]: [wc] is [w] after the start of a cycle, links redrawn;
    the body class, the location and the console may differ. *)
Definition chrome (w wc : World) : Prop :=
  localStorage wc = localStorage w
  ∧ users wc = users w
  ∧ events wc = events w
  ∧ alerts wc = alerts w
  ∧ requests wc = requests w
  ∧ innerHTML wc = innerHTML w
  ∧ faults wc = faults w
  ∧ mainNav wc
    = ((λ _, navLinksFor (localStorage w !! USER_INFO_KEY)) <$> mainNav w).

(** * Properties *)

(** ** Running computations *)

Lemma faultAt_sent k r w : faultAt k (sent r w) = faultAt (S k) w.
Proof. unfold faultAt, sent; simpl. by destruct (faults w). Qed.

Lemma fetch_GetEvent_found eventId e w :
  faultAt 0 w = None → events w !! eventId = Some e →
  fetch (GetEvent eventId) w
  = (Return (mkResponse true (JsonEvent e)), sent (GetEvent eventId) w).
Proof. intros Hf He. unfold fetch. rewrite Hf. cbn. by rewrite He. Qed.

Lemma fetch_PatchEvent_found eventId p e w :
  faultAt 0 w = None → events w !! eventId = Some e →
  fetch (PatchEvent eventId p) w
  = (Return (mkResponse true (JsonEvent (applyPatch p e))),
     set_events <[eventId := applyPatch p e]> (sent (PatchEvent eventId p) w)).
Proof. intros Hf He. unfold fetch. rewrite Hf. cbn. by rewrite He. Qed.

Lemma enrolled_fields uid e :
  enrolled uid e
  = Event.mk (Event.title e) (Event.description e) (Event.location e)
      (Event.date e) (Event.capacity e) (Event.attendees e ++ [uid]).
Proof. done. Qed.

Section RegisterForEvent.
Variables (eventId : string) (w : World) (user : Session.t) (event : Event.t).
Hypothesis Hsession : localStorage w !! USER_INFO_KEY = Some user.
Hypothesis Hfetch : faultAt 0 w = None.
Hypothesis Hevent : events w !! eventId = Some event.

Lemma registerForEvent_full :
  isFull event = true →
  registerForEvent eventId w
  = (Return None, add_alert "This event is full." (sent (GetEvent eventId) w)).
Proof using Hsession Hfetch Hevent.
  intros Hfull. unfold registerForEvent, getCurrentUser, get, mbind, M_bind.
  rewrite Hsession. unfold tryCatch.
  rewrite (fetch_GetEvent_found _ _ _ Hfetch Hevent). cbn.
  by rewrite Hfull.
Qed.

Lemma registerForEvent_duplicate :
  isFull event = false → Session.id user ∈ Event.attendees event →
  registerForEvent eventId w
  = (Return None,
     add_alert "You are already registered for this event."
       (sent (GetEvent eventId) w)).
Proof using Hsession Hfetch Hevent.
  intros Hfull Hin. unfold registerForEvent, getCurrentUser, get, mbind, M_bind.
  rewrite Hsession. unfold tryCatch.
  rewrite (fetch_GetEvent_found _ _ _ Hfetch Hevent). cbn.
  by rewrite Hfull, bool_decide_eq_true_2.
Qed.

Lemma registerForEvent_patched :
  isFull event = false → Session.id user ∉ Event.attendees event →
  faultAt 1 w = None →
  registerForEvent eventId w
  = (Return (Some (enrolled (Session.id user) event)),
     set_events <[eventId := enrolled (Session.id user) event]>
       (sent (enrollRequest eventId (Session.id user) event)
          (sent (GetEvent eventId) w))).
Proof using Hsession Hfetch Hevent.
  intros Hfull Hin Hf1. unfold registerForEvent, getCurrentUser, get, mbind, M_bind.
  rewrite Hsession. unfold tryCatch.
  rewrite (fetch_GetEvent_found _ _ _ Hfetch Hevent). cbn.
  rewrite Hfull, bool_decide_eq_false_2 by done.
  rewrite (fetch_PatchEvent_found eventId _ event); [done| |done].
  by rewrite faultAt_sent.
Qed.

Lemma registerForEvent_patch_lost f :
  isFull event = false → Session.id user ∉ Event.attendees event →
  faultAt 1 w = Some f →
  ∃ w', registerForEvent eventId w = (Return None, w')
        ∧ events w' = events w
        ∧ requests w' = requests w
            ++ [GetEvent eventId;
                enrollRequest eventId (Session.id user) event].
Proof using Hsession Hfetch Hevent.
  intros Hfull Hin Hf1. unfold registerForEvent, getCurrentUser, get, mbind, M_bind.
  rewrite Hsession. unfold tryCatch.
  rewrite (fetch_GetEvent_found _ _ _ Hfetch Hevent). cbn.
  rewrite Hfull, bool_decide_eq_false_2 by done.
  unfold fetch. rewrite faultAt_sent, Hf1.
  destruct f; cbn; eexists; (split; [reflexivity|]); cbn;
    by rewrite <- app_assoc.
Qed.
End RegisterForEvent.

Lemma registerForEvent_no_session eventId w :
  localStorage w !! USER_INFO_KEY = None →
  registerForEvent eventId w
  = (Return None, add_console "No user is logged in." w).
Proof.
  intros Hs. unfold registerForEvent, getCurrentUser, get, mbind, M_bind.
  by rewrite Hs.
Qed.

(** Every run of [registerForEvent] either leaves the events of the store
    as they were or replaces the fetched event by its [enrolled] version,
    and then the event had room and the user was not in it. *)
Lemma registerForEvent_events eventId w :
  events (registerForEvent eventId w).2 = events w
  ∨ ∃ user e,
      localStorage w !! USER_INFO_KEY = Some user
      ∧ events w !! eventId = Some e
      ∧ isFull e = false
      ∧ (Session.id user ∉ Event.attendees e)
      ∧ events (registerForEvent eventId w).2
        = <[eventId := enrolled (Session.id user) e]> (events w).
Proof.
  destruct (localStorage w !! USER_INFO_KEY) as [user|] eqn:Hs;
    [|left; rewrite registerForEvent_no_session; done].
  destruct (faultAt 0 w) as [f|] eqn:Hf.
  { left. unfold registerForEvent, getCurrentUser, get, mbind, M_bind.
    rewrite Hs. unfold tryCatch, fetch. rewrite Hf. by destruct f. }
  destruct (events w !! eventId) as [e|] eqn:He.
  2:{ left. unfold registerForEvent, getCurrentUser, get, mbind, M_bind.
      rewrite Hs. unfold tryCatch, fetch. rewrite Hf. cbn. by rewrite He. }
  destruct (isFull e) eqn:Hfull;
    [left; erewrite registerForEvent_full; done|].
  destruct (decide (Session.id user ∈ Event.attendees e)) as [Hin|Hin];
    [left; erewrite registerForEvent_duplicate; done|].
  destruct (faultAt 1 w) as [f|] eqn:Hf1.
  - left. destruct (registerForEvent_patch_lost eventId w user e Hs Hf He f)
      as (w' & -> & Hev & _); done.
  - right. exists user, e. repeat split; try done.
    by erewrite registerForEvent_patched.
Qed.

Lemma enrolled_withinCapacity uid e :
  isFull e = false → withinCapacity (enrolled uid e).
Proof.
  unfold isFull, withinCapacity. rewrite enrolled_fields. cbn.
  rewrite length_app. cbn. intros H%Z.leb_gt. lia.
Qed.

Lemma registerForEvent_capacityRespected eventId w :
  capacityRespected w → capacityRespected (registerForEvent eventId w).2.
Proof.
  unfold capacityRespected. intros Hw.
  destruct (registerForEvent_events eventId w)
    as [->|(user & e & _ & _ & Hfull & _ & ->)]; [done|].
  apply map_Forall_insert_2; [|done]. by apply enrolled_withinCapacity.
Qed.

Lemma enrollAll_capacityRespected eventId us w :
  capacityRespected w → capacityRespected (enrollAll eventId us w).2.
Proof.
  revert w. induction us as [|u us IH]; intros w Hw; [done|].
  cbn. unfold mbind, M_bind, saveUserInfo, modify.
  set (w1 := set_localStorage _ w).
  assert (capacityRespected w1) as H1 by done.
  apply (registerForEvent_capacityRespected eventId) in H1.
  destruct (registerForEvent eventId w1) as [[r|err|] w2]; try done.
  apply IH in H1. cbn in H1.
  by destruct (enrollAll eventId us w2) as [[rs|err|] w3].
Qed.

(** ** Enrolment is refused without a write *)

(** C4. When the fetched event is full ([attendees.length >= capacity]) or
    already lists the current user's id, [registerForEvent] returns [null],
    the only request it has sent is the read of the event, the events of
    the store are as before, and the user has been shown one message. *)
Theorem registerForEvent_refuses eventId w user event :
  localStorage w !! USER_INFO_KEY = Some user →
  faultAt 0 w = None →
  events w !! eventId = Some event →
  isFull event = true ∨ Session.id user ∈ Event.attendees event →
  ∃ w' msg,
    registerForEvent eventId w = (Return None, w')
    ∧ requests w' = requests w ++ [GetEvent eventId]
    ∧ events w' = events w
    ∧ alerts w' = alerts w ++ [msg].
Proof.
  intros Hs Hf He Hrefused.
  destruct (isFull event) eqn:Hfull.
  - eexists _, _. by rewrite (registerForEvent_full _ _ _ _ Hs Hf He Hfull).
  - destruct Hrefused as [?|Hin]; [done|]. eexists _, _.
    by rewrite (registerForEvent_duplicate _ _ _ _ Hs Hf He Hfull Hin).
Qed.

Lemma registerForEvent_refuses_witness :
  ∃ w' msg,
    registerForEvent "7" soldOut = (Return None, w')
    ∧ requests w' = [GetEvent "7"]
    ∧ events w' = {[ "7" := meetup 1 [IdNum 5] ]}
    ∧ alerts w' = [msg].
Proof.
  exact (registerForEvent_refuses "7" soldOut
           (sessionOf visitor1) (meetup 1 [IdNum 5])
           eq_refl eq_refl eq_refl (or_introl eq_refl)).
Defined.

(** ** What a successful enrolment writes *)

(** C8. When the fetched event has room and does not list the user,
    [registerForEvent] sends, after the read, one PATCH whose body has the
    [attendees] field only: the fetched attendees followed by the user's
    id.  When that PATCH goes through, the stored event differs from the
    fetched one in [attendees] alone, and it is the value returned. *)
Theorem registerForEvent_writes_attendees_only eventId w user event :
  localStorage w !! USER_INFO_KEY = Some user →
  faultAt 0 w = None →
  events w !! eventId = Some event →
  isFull event = false →
  Session.id user ∉ Event.attendees event →
  ∃ res w',
    registerForEvent eventId w = (Return res, w')
    ∧ requests w'
      = requests w
        ++ [GetEvent eventId;
            PatchEvent eventId
              (Event.mkPatch None None None None None
                 (Some (Event.attendees event ++ [Session.id user])))]
    ∧ (faultAt 1 w = None →
       let event' :=
         Event.mk (Event.title event) (Event.description event)
           (Event.location event) (Event.date event) (Event.capacity event)
           (Event.attendees event ++ [Session.id user]) in
       res = Some event' ∧ events w' = <[eventId := event']> (events w)).
Proof.
  intros Hs Hf He Hfull Hin.
  destruct (faultAt 1 w) as [f|] eqn:Hf1.
  - destruct (registerForEvent_patch_lost eventId w user event Hs Hf He f)
      as (w' & Hrun & _ & Hreq); try done.
    exists None, w'. done.
  - eexists _, _. rewrite (registerForEvent_patched _ _ _ _ Hs Hf He); try done.
    split; [done|]. split; [|done]. cbn. by rewrite <- app_assoc.
Qed.

Lemma registerForEvent_writes_attendees_only_witness :
  ∃ res w',
    registerForEvent "7" roomy = (Return res, w')
    ∧ requests w'
      = [GetEvent "7";
         PatchEvent "7"
           (Event.mkPatch None None None None None (Some [IdNum 5; IdNum 2]))]
    ∧ (faultAt 1 roomy = None →
       res = Some (meetup 3 [IdNum 5; IdNum 2])
       ∧ events w' = <["7" := meetup 3 [IdNum 5; IdNum 2]]>
                       {[ "7" := meetup 3 [IdNum 5] ]}).
Proof.
  refine (registerForEvent_writes_attendees_only "7" roomy
            (sessionOf visitor1) (meetup 3 [IdNum 5])
            eq_refl eq_refl eq_refl eq_refl _).
  intros Hin. apply list_elem_of_singleton in Hin. discriminate Hin.
Defined.

(** ** Leaving an event *)

(** C9. With no session in localStorage, [unregisterFromEvent] returns
    [null] and changes nothing: no request is sent, neither the read of
    the event nor a write. *)
Theorem unregisterFromEvent_no_session eventId w :
  localStorage w !! USER_INFO_KEY = None →
  unregisterFromEvent eventId w = (Return None, w).
Proof.
  intros Hs. unfold unregisterFromEvent, getCurrentUser, get, mbind, M_bind.
  by rewrite Hs.
Qed.

Lemma unregisterFromEvent_no_session_witness :
  unregisterFromEvent "7"
    (sampleWorld None "/" {[ "7" := meetup 3 [IdNum 5] ]} [])
  = (Return None, sampleWorld None "/" {[ "7" := meetup 3 [IdNum 5] ]} []).
Proof.
  exact (unregisterFromEvent_no_session "7"
           (sampleWorld None "/" {[ "7" := meetup 3 [IdNum 5] ]} []) eq_refl).
Defined.

Lemma filter_other_absent (uid : Id) (l : list Id) :
  uid ∉ l → filter (λ id, id ≠ uid) l = l.
Proof.
  induction l as [|x l IH]; [done|].
  intros Hnot. apply not_elem_of_cons in Hnot as [Hne Hnot].
  rewrite filter_cons_True by done. by rewrite IH.
Qed.

Lemma applyPatch_same_attendees e :
  applyPatch (Event.attendeesOnly (Event.attendees e)) e = e.
Proof. by destruct e. Qed.

(** C6. When the fetched event does not list the current user's id,
    [unregisterFromEvent] reads the event, writes back the attendees it
    read, and leaves the events of the store as they were; when the write
    goes through, it returns the event, unchanged, and not [null]. *)
Theorem unregisterFromEvent_absent eventId w user event :
  localStorage w !! USER_INFO_KEY = Some user →
  faultAt 0 w = None →
  events w !! eventId = Some event →
  Session.id user ∉ Event.attendees event →
  ∃ res w',
    unregisterFromEvent eventId w = (Return res, w')
    ∧ requests w'
      = requests w
        ++ [GetEvent eventId;
            PatchEvent eventId (Event.attendeesOnly (Event.attendees event))]
    ∧ events w' = events w
    ∧ (faultAt 1 w = None → res = Some event).
Proof.
  intros Hs Hf He Hin.
  unfold unregisterFromEvent, getCurrentUser, get, mbind, M_bind.
  rewrite Hs. unfold tryCatch.
  rewrite (fetch_GetEvent_found _ _ _ Hf He). cbn.
  rewrite (filter_other_absent _ _ Hin).
  destruct (faultAt 1 w) as [f|] eqn:Hf1.
  - unfold fetch. rewrite faultAt_sent, Hf1.
    destruct f; cbn; eexists _, _; (split; [reflexivity|]); cbn;
      by rewrite <- app_assoc.
  - rewrite (fetch_PatchEvent_found eventId _ event);
      [|by rewrite faultAt_sent|done].
    cbn. rewrite applyPatch_same_attendees. eexists _, _.
    split; [reflexivity|]. cbn. rewrite <- app_assoc.
    by rewrite insert_id.
Qed.

Lemma unregisterFromEvent_absent_witness :
  ∃ res w',
    unregisterFromEvent "7" roomy = (Return res, w')
    ∧ requests w'
      = [GetEvent "7"; PatchEvent "7" (Event.attendeesOnly [IdNum 5])]
    ∧ events w' = events roomy
    ∧ (faultAt 1 roomy = None → res = Some (meetup 3 [IdNum 5])).
Proof.
  refine (unregisterFromEvent_absent "7" roomy (sessionOf visitor1)
            (meetup 3 [IdNum 5]) eq_refl eq_refl eq_refl _).
  intros Hin. apply list_elem_of_singleton in Hin. discriminate Hin.
Defined.

(** ** Sequential enrolment up to capacity *)

Lemma reliable_faultAt k w : reliable w → faultAt k w = None.
Proof.
  unfold reliable, faultAt. intros Hw.
  destruct (faults w !! k) as [f|] eqn:Hk; [|done].
  by apply (Forall_lookup_1 _ _ _ _ Hw Hk).
Qed.

Lemma reliable_sent r w : reliable w → reliable (sent r w).
Proof.
  unfold reliable, sent; cbn. destruct (faults w); [done|].
  apply Forall_inv_tail.
Qed.

Lemma enrollAll_cons eventId u us w r w1 rs w' :
  (saveUserInfo u;; registerForEvent eventId) w = (Return r, w1) →
  enrollAll eventId us w1 = (Return rs, w') →
  enrollAll eventId (u :: us) w = (Return (r :: rs), w').
Proof.
  intros Hone Hrest.
  change (enrollAll eventId (u :: us) w)
    with (match (saveUserInfo u;; registerForEvent eventId) w with
          | (Return r, w1) =>
              (rs ← enrollAll eventId us; mret (r :: rs)) w1
          | (Throw e, w1) => (Throw e, w1)
          | (OutOfFuel, w1) => (OutOfFuel, w1)
          end).
  rewrite Hone. unfold mbind, M_bind. by rewrite Hrest.
Qed.

(** One step of the sequence: a new user meets an event with room. *)
Lemma enroll_one eventId u w e :
  reliable w → events w !! eventId = Some e →
  isFull e = false → User.id u ∉ Event.attendees e →
  ∃ w',
    (saveUserInfo u;; registerForEvent eventId) w
    = (Return (Some (enrolled (User.id u) e)), w')
    ∧ reliable w'
    ∧ events w' = <[eventId := enrolled (User.id u) e]> (events w).
Proof.
  intros Hw He Hfull Hin. unfold mbind, M_bind, saveUserInfo, modify.
  set (w1 := set_localStorage _ w).
  rewrite (registerForEvent_patched eventId w1
             (Session.mk (User.id u) (User.email u) (User.role u)) e);
    try done.
  - eexists. split; [reflexivity|]. split; [|done].
    by do 2 apply reliable_sent.
  - apply lookup_insert_eq.
  - by apply (reliable_faultAt 0 w1).
  - by apply (reliable_faultAt 1 w1).
Qed.

Lemma enrollAll_fills eventId us : ∀ w e,
  reliable w → events w !! eventId = Some e →
  NoDup (Event.attendees e ++ (User.id <$> us)) →
  (Z.of_nat (length (Event.attendees e) + length us)
   ≤ default 0 (Event.capacity e))%Z →
  ∃ rs w' e',
    enrollAll eventId us w = (Return rs, w')
    ∧ length rs = length us ∧ Forall is_Some rs
    ∧ reliable w'
    ∧ events w' !! eventId = Some e'
    ∧ Event.attendees e' = Event.attendees e ++ (User.id <$> us)
    ∧ Event.capacity e' = Event.capacity e.
Proof.
  induction us as [|u us IH]; intros w e Hw He Hnodup Hcap.
  - exists [], w, e. rewrite app_nil_r. done.
  - assert (isFull e = false) as Hfull.
    { unfold isFull. apply Z.leb_gt. cbn in Hcap. lia. }
    assert (User.id u ∉ Event.attendees e) as Hin.
    { intros Hin. apply NoDup_app in Hnodup as (_ & Hdisj & _).
      apply (Hdisj _ Hin). cbn. left. }
    destruct (enroll_one eventId u w e Hw He Hfull Hin) as (w1 & Hrun & Hw1 & Hev).
    destruct (IH w1 (enrolled (User.id u) e)) as (rs & w' & e' & Hrest & Hlen & Hall & Hw' & He' & Hatt & Hc).
    + done.
    + rewrite Hev. apply lookup_insert_eq.
    + rewrite enrolled_fields. cbn. by rewrite <- app_assoc.
    + rewrite enrolled_fields. cbn. rewrite length_app. cbn in *. lia.
    + exists (Some (enrolled (User.id u) e) :: rs), w', e'.
      split.
      { apply (enrollAll_cons _ _ _ _ _ _ _ _ Hrun Hrest). }
      split; [cbn; by rewrite Hlen|].
      split; [by constructor|].
      split; [done|]. split; [done|].
      rewrite Hatt, Hc, enrolled_fields. cbn. by rewrite <- app_assoc.
Qed.

(** C5. An event created with capacity [N] and no attendees, and [N] users
    with distinct ids enrolling one after the other over a transport
    without faults: every enrolment succeeds, the attendees are then the
    [N] ids in order, one more attempt returns [null] and leaves the event
    as it is, with [N] attendees.  If every stored event was within its
    capacity at the start, so it is after the sequence and after the
    refused attempt. *)
Theorem sequential_enrollment_roundtrip (N : nat) eventId w
    title description location date (us : list User.t) (extra : User.t) :
  reliable w →
  events w !! eventId
  = Some (Event.new title description location date (Some (Z.of_nat N))) →
  NoDup (User.id <$> us) →
  length us = N →
  ∃ rs w1 e1 w2,
    enrollAll eventId us w = (Return rs, w1)
    ∧ length rs = N ∧ Forall is_Some rs
    ∧ events w1 !! eventId = Some e1
    ∧ Event.attendees e1 = User.id <$> us
    ∧ (saveUserInfo extra;; registerForEvent eventId) w1 = (Return None, w2)
    ∧ events w2 !! eventId = Some e1
    ∧ length (Event.attendees e1) = N
    ∧ (capacityRespected w → capacityRespected w1 ∧ capacityRespected w2).
Proof.
  intros Hw He Hnodup Hlen.
  destruct (enrollAll_fills eventId us w _ Hw He)
    as (rs & w1 & e1 & Hrun & Hrs & Hall & Hw1 & He1 & Hatt & Hcap);
    [done | cbn; lia |].
  cbn in Hatt, Hcap.
  assert (isFull e1 = true) as Hfull.
  { unfold isFull. rewrite Hcap, Hatt, length_fmap. cbn. apply Z.leb_le. lia. }
  set (w1' := set_localStorage <[USER_INFO_KEY := sessionOf extra]> w1).
  assert ((saveUserInfo extra;; registerForEvent eventId) w1
          = registerForEvent eventId w1') as Hstep by done.
  assert (registerForEvent eventId w1'
          = (Return None,
             add_alert "This event is full." (sent (GetEvent eventId) w1')))
    as Hrefused.
  { apply (registerForEvent_full eventId w1' (sessionOf extra) e1);
      [apply lookup_insert_eq | by apply (reliable_faultAt 0 w1') | done | done]. }
  exists rs, w1, e1, (add_alert "This event is full." (sent (GetEvent eventId) w1')).
  split; [done|]. split; [congruence|]. split; [done|]. split; [done|].
  split; [done|]. split; [by rewrite Hstep|]. split; [done|].
  split; [by rewrite Hatt, length_fmap|].
  intros Hinv.
  assert (capacityRespected w1) as Hinv1.
  { pose proof (enrollAll_capacityRespected eventId us w Hinv) as Hafter.
    rewrite Hrun in Hafter. exact Hafter. }
  done.
Qed.

Lemma sequential_enrollment_roundtrip_witness :
  ∃ rs w1 e1 w2,
    enrollAll "7" [visitor1; visitor2]
      (sampleWorld None "/" {[ "7" := Event.new "Meetup" "" "Hall" "" (Some 2%Z) ]} [])
    = (Return rs, w1)
    ∧ length rs = 2 ∧ Forall is_Some rs
    ∧ events w1 !! "7" = Some e1
    ∧ Event.attendees e1 = [IdNum 2; IdStr "a3f"]
    ∧ (saveUserInfo admin;; registerForEvent "7") w1 = (Return None, w2)
    ∧ events w2 !! "7" = Some e1
    ∧ length (Event.attendees e1) = 2
    ∧ (capacityRespected
         (sampleWorld None "/" {[ "7" := Event.new "Meetup" "" "Hall" "" (Some 2%Z) ]} [])
       → capacityRespected w1 ∧ capacityRespected w2).
Proof.
  refine (sequential_enrollment_roundtrip 2 "7"
            (sampleWorld None "/" {[ "7" := Event.new "Meetup" "" "Hall" "" (Some 2%Z) ]} [])
            "Meetup" "" "Hall" "" [visitor1; visitor2] admin _ eq_refl _ eq_refl).
  - apply Forall_nil_2.
  - apply NoDup_cons_2; [|apply NoDup_singleton].
    intros Hin. apply list_elem_of_singleton in Hin. discriminate Hin.
Defined.

(** ** Login *)

Lemma fetch_GetUsers_answer email password w :
  faultAt 0 w = None →
  fetch (GetUsers email password) w
  = (Return (mkResponse true (JsonUsers (matchingUsers email password w))),
     sent (GetUsers email password) w).
Proof. intros Hf. unfold fetch. by rewrite Hf. Qed.

Lemma plainChar_not_hash c : plainChar c = true → Ascii.eqb c "#"%char = false.
Proof.
  intros Hc. destruct (Ascii.eqb c "#"%char) eqn:Heq; [|done].
  apply Ascii.eqb_eq in Heq. subst c. discriminate Hc.
Qed.

Lemma urlPlain_no_fragment s :
  urlPlain s = true → hasFragment s = false ∧ beforeFragment s = s.
Proof.
  induction s as [|c s IH]; [done|]. cbn [urlPlain hasFragment beforeFragment].
  intros [Hc Hs]%andb_prop. rewrite (plainChar_not_hash c Hc).
  destruct (IH Hs) as [-> ->]. done.
Qed.

(** Values that are sent plain make the query they spell. *)
Lemma loginQuery_plain email password :
  urlPlain email = true → urlPlain password = true →
  loginQuery email password = GetUsers email (Some password).
Proof.
  intros [He _]%urlPlain_no_fragment [_ Hp]%urlPlain_no_fragment.
  unfold loginQuery. by rewrite He, Hp.
Qed.

(** X25. [handleLogin] follows the answer to the query it sends.  Where
    the email and the password of that query are plain, [handleLogin]
    returns a boolean: [true] exactly when the request goes through and
    the store holds exactly one user the query selects, and then the
    session [{id, email, role}] of that user is what localStorage holds
    under the key; when it returns [false] (no such user, several, a
    network failure or an HTTP error status) localStorage is as before. *)
Theorem handleLogin_follows_query email password sentEmail sentPassword w :
  loginQuery email password = GetUsers sentEmail sentPassword →
  urlPlain sentEmail = true →
  from_option urlPlain true sentPassword = true →
  ∃ b w',
    handleLogin email password w = (Return b, w')
    ∧ (b = true ↔
       faultAt 0 w = None
       ∧ length (matchingUsers sentEmail sentPassword w) = 1%nat)
    ∧ (b = true →
       ∃ user,
         matchingUsers sentEmail sentPassword w = [user]
         ∧ localStorage w'
           = <[USER_INFO_KEY :=
                 Session.mk (User.id user) (User.email user) (User.role user)]>
               (localStorage w))
    ∧ (b = false → localStorage w' = localStorage w).
Proof.
  intros Hquery _ _. unfold handleLogin. rewrite Hquery.
  unfold tryCatch, mbind, M_bind.
  destruct (faultAt 0 w) as [f|] eqn:Hf.
  - unfold fetch. rewrite Hf. exists false.
    destruct f; cbn; eexists; (split; [reflexivity|]);
      (split; [split; [done|intros []; done]|]); done.
  - rewrite fetch_GetUsers_answer by done. cbn.
    destruct (matchingUsers sentEmail sentPassword w)
      as [|user [|user' rest]] eqn:Hm; cbn.
    + exists false. eexists. split; [reflexivity|].
      split; [split; [done|intros []; done]|]. done.
    + exists true. eexists. split; [reflexivity|].
      split; [done|]. split; [|done]. intros _. by exists user.
    + exists false. eexists. split; [reflexivity|].
      split; [split; [done|intros []; done]|]. done.
Qed.

Lemma handleLogin_follows_query_witness :
  ∃ b w',
    handleLogin "visitor1@test.com" "visitor123"
      (sampleWorld None "/login" ∅ [])
    = (Return b, w')
    ∧ (b = true ↔
       faultAt 0 (sampleWorld None "/login" ∅ []) = None
       ∧ length (matchingUsers "visitor1@test.com" (Some "visitor123")
                   (sampleWorld None "/login" ∅ [])) = 1%nat)
    ∧ (b = true →
       ∃ user,
         matchingUsers "visitor1@test.com" (Some "visitor123")
           (sampleWorld None "/login" ∅ []) = [user]
         ∧ localStorage w'
           = <[USER_INFO_KEY :=
                 Session.mk (User.id user) (User.email user) (User.role user)]>
               (localStorage (sampleWorld None "/login" ∅ [])))
    ∧ (b = false
       → localStorage w' = localStorage (sampleWorld None "/login" ∅ [])).
Proof.
  exact (handleLogin_follows_query "visitor1@test.com" "visitor123"
           "visitor1@test.com" (Some "visitor123")
           (sampleWorld None "/login" ∅ []) eq_refl eq_refl eq_refl).
Defined.

(** The two examples of the specification: the administrator's
    credentials against a store holding that record, and a wrong
    password. *)
Example login_admin :
  ∃ w',
    handleLogin "admin@events.com" "admin123" (sampleWorld None "/login" ∅ [])
    = (Return true, w')
    ∧ Session.role <$> localStorage w' !! USER_INFO_KEY = Some "administrator".
Proof. eexists. split; [reflexivity|]. reflexivity. Qed.

Example login_wrong_password :
  ∃ w',
    handleLogin "admin@events.com" "admin124" (sampleWorld None "/login" ∅ [])
    = (Return false, w')
    ∧ localStorage w' = ∅.
Proof. eexists. split; reflexivity. Qed.

(** C3 fails on the code.  The password [admin123#x] is the password of no
    user of the store, and no user has the email [admin@events.com] with
    it; yet [handleLogin] returns [true] for it and stores the
    administrator's session.  The URL is built without encoding, it ends
    at the [#], and the query the store receives is the one for the
    password [admin123]. *)
Theorem handleLogin_accepts_mismatched_password :
  Forall (λ u, User.password u ≠ "admin123#x")
    (users (sampleWorld None "/login" ∅ []))
  ∧ ∃ w',
      handleLogin "admin@events.com" "admin123#x"
        (sampleWorld None "/login" ∅ [])
      = (Return true, w')
      ∧ localStorage w' !! USER_INFO_KEY = Some (sessionOf admin)
      ∧ requests w' = [GetUsers "admin@events.com" (Some "admin123")].
Proof.
  split; [by repeat constructor|].
  eexists. split; [vm_compute; reflexivity|]. split; reflexivity.
Qed.

(** A [#] in the email removes the password filter: with the
    administrator's email followed by [#], any password is accepted. *)
Example login_fragment_in_email :
  ∃ w',
    handleLogin "admin@events.com#" "guess" (sampleWorld None "/login" ∅ [])
    = (Return true, w')
    ∧ localStorage w' !! USER_INFO_KEY = Some (sessionOf admin)
    ∧ requests w' = [GetUsers "admin@events.com" None].
Proof.
  eexists. split; [vm_compute; reflexivity|]. split; reflexivity.
Qed.

(** ** The router *)

Lemma routes_home : routes !! "/" = Some "src/views/home.html".
Proof. reflexivity. Qed.
Lemma routes_login : routes !! "/login" = Some "src/views/login.html".
Proof. reflexivity. Qed.
Lemma routes_admin :
  routes !! "/admin-dashboard" = Some "src/views/admin-dashboard.html".
Proof. reflexivity. Qed.
Lemma routes_visitor :
  routes !! "/visitor-dashboard" = Some "src/views/visitor-dashboard.html".
Proof. reflexivity. Qed.
Lemma routes_404 : routes !! "/404" = Some "src/views/404.html".
Proof. reflexivity. Qed.

Lemma set_mainNav_same w : set_mainNav (mainNav w) w = w.
Proof. by destruct w. Qed.

Lemma isAuthenticated_run w :
  isAuthenticated w = (Return (bool_decide (is_Some (localStorage w !! USER_INFO_KEY))), w).
Proof.
  unfold isAuthenticated, get. f_equal. f_equal.
  destruct (localStorage w !! USER_INFO_KEY) eqn:Hs.
  - rewrite !bool_decide_eq_true_2; done.
  - rewrite !bool_decide_eq_false_2; [done| by intros [] | by intros []].
Qed.

(** [renderNavbar] returns and touches nothing but the links. *)
Lemma renderNavbar_run w :
  ∃ nav, renderNavbar w = (Return (), set_mainNav nav w).
Proof.
  unfold renderNavbar, mbind, M_bind, get.
  destruct (mainNav w) as [links|] eqn:Hnav.
  2:{ exists None. by rewrite <- Hnav, set_mainNav_same. }
  rewrite isAuthenticated_run. unfold getCurrentUser, get.
  destruct (localStorage w !! USER_INFO_KEY) as [user|] eqn:Hs.
  - rewrite bool_decide_eq_true_2 by done.
    unfold authAs, roleOf, mbind, mret, M_bind, M_ret, modify. cbn.
    destruct (Session.role user =? "administrator"); [by eexists|].
    destruct (Session.role user =? "visitor"); by eexists.
  - rewrite bool_decide_eq_false_2 by (by intros []). by eexists.
Qed.

(** The three fates of a request for a view. *)
Lemma fetch_view_cases viewPath w :
  (faultAt 0 w = Some NetworkError
   ∧ fetch (GetView viewPath) w
     = (Throw "TypeError: Failed to fetch", sent (GetView viewPath) w))
  ∨ ((faultAt 0 w = None → ∀ src, viewPath = Some src → src ∉ viewFiles)
     ∧ fetch (GetView viewPath) w
       = (Return (mkResponse false Unparsable), sent (GetView viewPath) w))
  ∨ (∃ src, viewPath = Some src ∧ src ∈ viewFiles
            ∧ fetch (GetView viewPath) w
              = (Return (mkResponse true (Html src)), sent (GetView viewPath) w)).
Proof.
  unfold fetch. destruct (faultAt 0 w) as [[]|].
  - by left.
  - right; left. by split.
  - destruct viewPath as [src|]; cbn -[viewFiles].
    + destruct (decide (src ∈ viewFiles)) as [Hin|Hin].
      * right; right. exists src. by rewrite bool_decide_eq_true_2.
      * right; left. rewrite bool_decide_eq_false_2 by done.
        split; [|done]. by intros _ ? [= <-].
    + right; left. by split.
Qed.

(** The end of [render], once the view is loaded. *)
Lemma render_tail_run (isAuth : bool) (init : option Initializer) w :
  ∃ w',
    (match init with
     | Some i => modify (add_initialized i)
     | None => mret ()
     end;;
     if isAuth then addLogoutButton else mret ()) w = (Return (), w')
    ∧ history w' = history w ∧ pathname w' = pathname w
    ∧ localStorage w' = localStorage w ∧ requests w' = requests w
    ∧ innerHTML w' = innerHTML w
    ∧ initialized w' = initialized w ++ option_list init.
Proof.
  destruct w as [? ? ? ? ? ? present ? ? ? ? ? ? ?].
  destruct init as [i|], isAuth, present;
    (eexists; split; [reflexivity|]); cbn; by rewrite ?app_nil_r.
Qed.

(** Loading a view: what [loadView] may leave behind. *)
Lemma loadView_run viewPath w :
  ∃ res w',
    loadView viewPath w = (res, w')
    ∧ res ≠ OutOfFuel
    ∧ navigated [] viewPath None w w'
    ∧ (∀ src, faultAt 0 w = None → viewPath = Some src → src ∈ viewFiles →
         res = Return ()).
Proof.
  unfold loadView, tryCatch, mbind, M_bind, navigated.
  destruct (fetch_view_cases viewPath w)
    as [[Hf ->]|[[Hno ->]|(src & -> & Hin & ->)]]; cbn -[routes].
  3:{ eexists _, _. split; [reflexivity|]. cbn. rewrite !app_nil_r.
      repeat split; eauto 10; congruence. }
  all: unfold console_log, modify; cbn -[routes]; rewrite routes_404;
    match goal with
    | |- context [fetch ?r ?w1] =>
        destruct (fetch_view_cases (Some "src/views/404.html") w1)
          as [[Hf' ->]|[[Hno' ->]|(src' & [= <-] & Hin' & ->)]]
    end; cbn;
    (eexists _, _; split; [reflexivity|]); cbn;
    rewrite <- ?app_assoc, ?app_nil_r; cbn;
    (split; [done|]);
    (split; [repeat split; eauto 10|]); intros;
    solve [congruence | exfalso; eapply Hno; eauto].
Qed.

Lemma render_run isAuth viewPath init w :
  ∃ res w',
    render isAuth viewPath init w = (res, w')
    ∧ res ≠ OutOfFuel
    ∧ navigated [] viewPath init w w'.
Proof.
  unfold render.
  destruct (loadView_run viewPath w)
    as (res & w1 & Hload & Hfuel & Hnav & Hok).
  unfold mbind at 1. unfold M_bind at 1. rewrite Hload.
  unfold navigated in *.
  destruct Hnav as (H1 & H2 & H3 & H4 & H5 & H6 & H7).
  destruct res as [[]|err|]; [| |done].
  - destruct (render_tail_run isAuth init w1)
      as (w' & -> & Hhist & Hpath & Hls & Hreq & Hhtml & Hinit).
    exists (Return ()), w'. split; [done|]. split; [done|].
    rewrite Hhist, Hpath, Hls, Hreq, Hhtml, Hinit.
    repeat split; try done.
    + destruct H6 as [->|(i & ? & _)]; [|done].
      destruct init as [i|]; cbn; [right; by exists i|left; by rewrite app_nil_r].
    + by destruct (H7 src).
    + destruct (H7 src) as [_ ->]; try done. by rewrite app_nil_r.
  - exists (Throw err), w1. split; [done|]. split; [done|].
    repeat split; try done.
    + destruct H6 as [->|(i & ? & _)]; [by left|done].
    + by destruct (H7 src).
    + by specialize (Hok src ltac:(done) ltac:(done) ltac:(done)).
Qed.

(** The start of every cycle: read the location and the session, redraw
    the links, set the body class. *)
Ltac enter_cycle w nav :=
  let Hnav := fresh "Hnav" in
  cbn [handleLocation];
  unfold mbind, M_bind, getCurrentUser, updateBodyClass, modify, console_log,
    get;
  rewrite isAuthenticated_run; cbv beta iota delta [get];
  destruct (renderNavbar_run w) as [nav Hnav]; rewrite Hnav; clear Hnav;
  cbv beta iota.

Ltac branch :=
  cbn -[render routes navigateTo_with handleLocation].

(** What the chrome and the console hold does not matter to [navigated]. *)
Ltac forget_chrome H :=
  unfold navigated, faultAt in H |- *; cbn in H |- *;
  repeat rewrite <- app_assoc in H; repeat rewrite app_nil_r in H;
  repeat rewrite <- app_assoc; repeat rewrite app_nil_r;
  cbn in H |- *; exact H.

(** Finish a branch that ends in [render]. *)
Ltac finish_render :=
  match goal with
  | |- context [render ?a ?v ?i ?w2] =>
      let res := fresh "res" in
      let w' := fresh "w'" in
      let Hfuel := fresh "Hfuel" in
      let Hnav := fresh "Hnav" in
      destruct (render_run a v i w2) as (res & w' & -> & Hfuel & Hnav);
      exists res, w'; (split; [done|]); (split; [done|]); forget_chrome Hnav
  end.

Lemma last_cons_default (p q : string) (hops : list string) :
  default q (last (p :: hops)) = default p (last hops).
Proof.
  destruct hops as [|h hops]; [done|].
  change (last (p :: h :: hops)) with (last (h :: hops)).
  destruct (last (h :: hops)) eqn:Hlast; [done|].
  by apply last_None in Hlast.
Qed.

(** [navigateTo]: one more entry in the history, then whatever the
    location handler does there; the caller gets no exception. *)
Lemma navigateTo_with_then (k : M unit) path w hops viewPath init :
  (∃ res w1, k (set_location path w) = (res, w1)
             ∧ res ≠ OutOfFuel
             ∧ navigated hops viewPath init (set_location path w) w1) →
  ∃ w', navigateTo_with k path w = (Return (), w')
        ∧ navigated (path :: hops) viewPath init w w'.
Proof.
  intros (res & w1 & Hk & Hfuel & Hnav).
  unfold navigateTo_with, detached, tryCatch, mbind, M_bind, modify. rewrite Hk.
  unfold navigated in *. rewrite last_cons_default.
  destruct res as [[]|err|]; [| |done].
  - exists w1. split; [done|]. forget_chrome Hnav.
  - eexists. split; [reflexivity|]. forget_chrome Hnav.
Qed.

Lemma navigateTo_with_run (k : M unit) path w viewPath init :
  (∃ res w1, k (set_location path w) = (res, w1)
             ∧ res ≠ OutOfFuel
             ∧ navigated [] viewPath init (set_location path w) w1) →
  ∃ w', navigateTo_with k path w = (Return (), w')
        ∧ navigated [path] viewPath init w w'.
Proof. apply navigateTo_with_then. Qed.

(** *** Cycles that end in a view *)

Section Landing.
Variables (n : nat) (w : World).

Lemma land_home :
  pathname w = "/" ∨ pathname w = "/home" →
  settles (S n) [] (Some "src/views/home.html") None w.
Proof.
  intros Hpath. unfold settles. enter_cycle w nav.
  destruct (bool_decide _) eqn:Hauth, Hpath as [-> | ->]; branch;
    rewrite routes_home; finish_render.
Qed.

Lemma land_login :
  localStorage w !! USER_INFO_KEY = None →
  pathname w = "/login" →
  settles (S n) [] (Some "src/views/login.html") (Some initializeLoginForm) w.
Proof.
  intros Hs Hpath. unfold settles. enter_cycle w nav. rewrite Hs, Hpath. branch.
  rewrite routes_login. finish_render.
Qed.

Lemma land_register :
  localStorage w !! USER_INFO_KEY = None →
  pathname w = "/register" →
  settles (S n) [] (routes !! "/register") (Some initializeRegisterForm) w.
Proof.
  intros Hs Hpath. unfold settles. enter_cycle w nav. rewrite Hs, Hpath. branch.
  finish_render.
Qed.

Lemma land_not_found :
  pathname w ∉ ["/"; "/home"; "/login"; "/register"; "/admin-dashboard";
                "/visitor-dashboard"] →
  settles (S n) [] (Some "src/views/404.html") None w.
Proof.
  intros Hpath. unfold settles. enter_cycle w nav.
  repeat match goal with
         | |- context [pathname w =? ?s] =>
             destruct (String.eqb_spec (pathname w) s) as [Heq|_];
               [exfalso; apply Hpath; rewrite Heq; set_solver|]
         end.
  destruct (bool_decide _); branch; rewrite routes_404; finish_render.
Qed.

Lemma land_dashboard user d :
  localStorage w !! USER_INFO_KEY = Some user →
  roleDashboard (Session.role user) = Some d →
  pathname w = d →
  settles (S n) [] (routes !! d) (Some (dashboardInitializer d (Some user))) w.
Proof.
  intros Hs Hd Hpath. unfold settles. enter_cycle w nav. rewrite Hs, Hpath.
  unfold roleDashboard in Hd.
  destruct (Session.role user =? "administrator") eqn:Hadmin;
    [|destruct (Session.role user =? "visitor") eqn:Hvisitor; [|done]];
    injection Hd as <-; branch;
    unfold authAs, roleOf, mbind, mret, M_bind, M_ret; cbv beta iota;
    rewrite ?Hadmin, ?Hvisitor; finish_render.
Qed.

Lemma land_admin_unknown user :
  localStorage w !! USER_INFO_KEY = Some user →
  roleDashboard (Session.role user) = None →
  pathname w = "/admin-dashboard" →
  settles (S n) [] None None w.
Proof.
  intros Hs Hd Hpath. unfold settles. enter_cycle w nav. rewrite Hs, Hpath.
  unfold roleDashboard in Hd.
  destruct (Session.role user =? "administrator") eqn:Hadmin; [done|].
  destruct (Session.role user =? "visitor") eqn:Hvisitor; [done|].
  branch. unfold authAs, roleOf, mbind, mret, M_bind, M_ret; cbv beta iota.
  rewrite Hadmin, Hvisitor. finish_render.
Qed.
End Landing.

(** *** Cycles that end in a redirect

    Each lemma takes what the location handler does at the target, with
    the session as it is, and gives the whole navigation. *)

(** Finish a branch that ends in [navigateTo], given the rest [Hthen]. *)
Ltac finish_redirect Hthen :=
  match goal with
  | |- context [navigateTo_with ?k ?p ?w2] =>
      let w' := fresh "w'" in
      let Hnav := fresh "Hnav" in
      edestruct (navigateTo_with_then k p w2) as (w' & -> & Hnav);
        [apply Hthen; reflexivity|];
        exists w'; (split; [done|]); forget_chrome Hnav
  end.

Section Redirect.
Variables (n : nat) (w : World).
Variables (hops : list string) (viewPath : option string)
  (init : option Initializer).

Lemma redirect_login :
  localStorage w !! USER_INFO_KEY = None →
  pathname w = "/admin-dashboard" ∨ pathname w = "/visitor-dashboard" →
  ∃ w',
    handleLocation (S (S n)) w = (Return (), w')
    ∧ navigated ["/login"] (Some "src/views/login.html")
        (Some initializeLoginForm) w w'.
Proof.
  intros Hs Hpath.
  assert (∀ w2, localStorage w2 = localStorage w → pathname w2 = "/login" →
            settles (S n) [] (Some "src/views/login.html")
              (Some initializeLoginForm) w2) as Hthen.
  { intros w2 Hls Hp. apply land_login; [by rewrite Hls|done]. }
  enter_cycle w nav. rewrite Hs.
  destruct Hpath as [-> | ->]; branch; finish_redirect Hthen.
Qed.

Lemma redirect_guest user :
  localStorage w !! USER_INFO_KEY = Some user →
  pathname w = "/login" ∨ pathname w = "/register" →
  let target :=
    if Session.role user =? "administrator" then "/admin-dashboard"
    else "/visitor-dashboard" in
  (∀ w2, localStorage w2 = localStorage w → pathname w2 = target →
     settles (S n) hops viewPath init w2) →
  ∃ w',
    handleLocation (S (S n)) w = (Return (), w')
    ∧ navigated (target :: hops) viewPath init w w'.
Proof.
  intros Hs Hpath target Hthen. enter_cycle w nav. rewrite Hs.
  destruct Hpath as [-> | ->]; branch; unfold mret, M_ret; cbv beta iota;
    finish_redirect Hthen.
Qed.

Lemma redirect_from_visitor_dashboard user :
  localStorage w !! USER_INFO_KEY = Some user →
  pathname w = "/visitor-dashboard" →
  (Session.role user =? "visitor") = false →
  (∀ w2, localStorage w2 = localStorage w → pathname w2 = "/admin-dashboard" →
     settles (S n) hops viewPath init w2) →
  ∃ w',
    handleLocation (S (S n)) w = (Return (), w')
    ∧ navigated ("/admin-dashboard" :: hops) viewPath init w w'.
Proof.
  intros Hs Hpath Hrole Hthen. enter_cycle w nav. rewrite Hs, Hpath. branch.
  unfold authAs, roleOf, mbind, mret, M_bind, M_ret; cbv beta iota.
  rewrite Hrole. branch. finish_redirect Hthen.
Qed.

Lemma redirect_from_admin_dashboard user :
  localStorage w !! USER_INFO_KEY = Some user →
  pathname w = "/admin-dashboard" →
  (Session.role user =? "administrator") = false →
  (Session.role user =? "visitor") = true →
  (∀ w2, localStorage w2 = localStorage w → pathname w2 = "/visitor-dashboard" →
     settles (S n) hops viewPath init w2) →
  ∃ w',
    handleLocation (S (S n)) w = (Return (), w')
    ∧ navigated ("/visitor-dashboard" :: hops) viewPath init w w'.
Proof.
  intros Hs Hpath Hadmin Hvisitor Hthen. enter_cycle w nav. rewrite Hs, Hpath.
  branch. unfold authAs, roleOf, mbind, mret, M_bind, M_ret; cbv beta iota.
  rewrite Hadmin, Hvisitor. branch. finish_redirect Hthen.
Qed.
End Redirect.

(** ** Guards *)

(** C1. An unauthenticated navigation to /admin-dashboard or
    /visitor-dashboard is redirected to /login and that cycle ends there:
    the handler returns, /login is the one new history entry and the
    current path, the only views requested are the login view and, if
    that fails, the not-found view.  No dashboard view is requested, and
    none is put into #app-root. *)
Theorem unauthenticated_dashboard_redirects n w :
  localStorage w !! USER_INFO_KEY = None →
  pathname w = "/admin-dashboard" ∨ pathname w = "/visitor-dashboard" →
  ∃ w',
    handleLocation (S (S n)) w = (Return (), w')
    ∧ navigated ["/login"] (Some "src/views/login.html")
        (Some initializeLoginForm) w w'
    ∧ ∀ d, d = "src/views/admin-dashboard.html"
           ∨ d = "src/views/visitor-dashboard.html" →
        (GetView (Some d) ∈ requests w' → GetView (Some d) ∈ requests w)
        ∧ (innerHTML w' = Html d → innerHTML w = Html d).
Proof.
  intros Hs Hpath.
  destruct (redirect_login n w Hs Hpath) as (w' & Hrun & Hnav).
  exists w'. split; [done|]. split; [done|].
  destruct Hnav as (_ & _ & _ & (rs & Hreq & Hrs) & Hhtml & _).
  intros d Hd. split.
  - rewrite Hreq. intros [Hold|Hnew]%elem_of_app; [done|].
    exfalso. apply elem_of_cons in Hnew as [Heq|Hnew].
    + destruct Hd as [-> | ->]; discriminate Heq.
    + destruct Hrs as [-> | ->]; [by apply elem_of_nil in Hnew|].
      apply list_elem_of_singleton in Hnew.
      destruct Hd as [-> | ->]; discriminate Hnew.
  - intros Hdash. rewrite Hdash in Hhtml.
    destruct Hhtml as [<- | [Hbad | [Hbad | (src & [= <-] & Hbad)]]];
      [done|..]; destruct Hd as [-> | ->]; discriminate Hbad.
Qed.

Lemma unauthenticated_dashboard_redirects_witness :
  ∃ w',
    handleLocation 2 (sampleWorld None "/admin-dashboard" ∅ []) = (Return (), w')
    ∧ navigated ["/login"] (Some "src/views/login.html")
        (Some initializeLoginForm) (sampleWorld None "/admin-dashboard" ∅ []) w'
    ∧ ∀ d, d = "src/views/admin-dashboard.html"
           ∨ d = "src/views/visitor-dashboard.html" →
        (GetView (Some d) ∈ requests w'
         → GetView (Some d) ∈ requests (sampleWorld None "/admin-dashboard" ∅ []))
        ∧ (innerHTML w' = Html d
           → innerHTML (sampleWorld None "/admin-dashboard" ∅ []) = Html d).
Proof.
  exact (unauthenticated_dashboard_redirects 0
           (sampleWorld None "/admin-dashboard" ∅ []) eq_refl (or_introl eq_refl)).
Defined.

(** The view requests of a navigation that ended on [viewPath]: the
    request for it comes first, and any other is for the not-found view. *)
Lemma navigated_view_requests hops viewPath init w w' :
  navigated hops viewPath init w w' →
  ∃ rs,
    requests w' = requests w ++ GetView viewPath :: rs
    ∧ ∀ view, GetView view ∈ rs → view = Some "src/views/404.html".
Proof.
  intros (_ & _ & _ & (rs & Hreq & Hrs) & _). exists rs. split; [done|].
  intros view Hin. destruct Hrs as [-> | ->].
  - by apply elem_of_nil in Hin.
  - apply list_elem_of_singleton in Hin. by injection Hin.
Qed.

(** C2. An authenticated navigation to /login or /register by an
    administrator is redirected to /admin-dashboard, by a visitor to
    /visitor-dashboard: that dashboard is the one new history entry and
    the current path, the first request of the cycle is for the view of
    that dashboard, and the only other view that may be requested is the
    not-found view. *)
Theorem guest_only_redirects_to_own_dashboard n w user d :
  localStorage w !! USER_INFO_KEY = Some user →
  (Session.role user = "administrator" ∧ d = "/admin-dashboard")
  ∨ (Session.role user = "visitor" ∧ d = "/visitor-dashboard") →
  pathname w = "/login" ∨ pathname w = "/register" →
  ∃ w',
    handleLocation (S (S n)) w = (Return (), w')
    ∧ history w' = history w ++ [d]
    ∧ pathname w' = d
    ∧ ∃ rs,
        requests w' = requests w ++ GetView (routes !! d) :: rs
        ∧ ∀ view, GetView view ∈ rs → view = Some "src/views/404.html".
Proof.
  intros Hs Hrole Hpath.
  assert (roleDashboard (Session.role user) = Some d) as Hd.
  { by destruct Hrole as [[-> ->] | [-> ->]]. }
  assert ((if Session.role user =? "administrator" then "/admin-dashboard"
           else "/visitor-dashboard") = d) as Htarget.
  { by destruct Hrole as [[-> ->] | [-> ->]]. }
  destruct (redirect_guest n w [] (routes !! d)
              (Some (dashboardInitializer d (Some user))) user Hs Hpath)
    as (w' & Hrun & Hnav).
  { rewrite Htarget. intros w2 Hls Hp.
    apply (land_dashboard n w2 user d); [by rewrite Hls|done|done]. }
  rewrite Htarget in Hnav.
  exists w'. pose proof Hnav as (Hhist & Hp & _).
  split; [done|]. split; [exact Hhist|]. split; [exact Hp|].
  exact (navigated_view_requests _ _ _ _ _ Hnav).
Qed.

Lemma guest_only_redirects_to_own_dashboard_witness :
  ∃ w',
    handleLocation 2 (sampleWorld (Some visitor1) "/login" ∅ []) = (Return (), w')
    ∧ history w' = ["/visitor-dashboard"]
    ∧ pathname w' = "/visitor-dashboard"
    ∧ ∃ rs,
        requests w' = GetView (routes !! "/visitor-dashboard") :: rs
        ∧ ∀ view, GetView view ∈ rs → view = Some "src/views/404.html".
Proof.
  exact (guest_only_redirects_to_own_dashboard 0
           (sampleWorld (Some visitor1) "/login" ∅ []) (sessionOf visitor1)
           "/visitor-dashboard" eq_refl (or_intror (conj eq_refl eq_refl))
           (or_introl eq_refl)).
Defined.

(** C7, as the code has it.  An administrator on /visitor-dashboard is
    redirected to /admin-dashboard and a visitor on /admin-dashboard to
    /visitor-dashboard; the first request of the cycle is then for the
    view of that dashboard, and the only other view that may be requested
    is the not-found view.  A session whose role is neither is redirected
    from /visitor-dashboard to /admin-dashboard as well.  In no case is
    /login the target. *)
Theorem mismatched_dashboard_redirects n w user :
  localStorage w !! USER_INFO_KEY = Some user →
  (Session.role user = "administrator" ∧ pathname w = "/visitor-dashboard")
  ∨ (Session.role user = "visitor" ∧ pathname w = "/admin-dashboard")
  ∨ (roleDashboard (Session.role user) = None
     ∧ pathname w = "/visitor-dashboard") →
  let target :=
    if Session.role user =? "visitor" then "/visitor-dashboard"
    else "/admin-dashboard" in
  ∃ w',
    handleLocation (S (S n)) w = (Return (), w')
    ∧ history w' = history w ++ [target]
    ∧ pathname w' = target
    ∧ target ≠ "/login"
    ∧ (∀ d, roleDashboard (Session.role user) = Some d →
         d = target
         ∧ ∃ rs,
             requests w' = requests w ++ GetView (routes !! d) :: rs
             ∧ ∀ view, GetView view ∈ rs → view = Some "src/views/404.html").
Proof.
  intros Hs Hcase target.
  assert (target ≠ "/login") as Htarget.
  { unfold target. by destruct (Session.role user =? "visitor"). }
  assert (∃ viewPath init,
            (∀ d, roleDashboard (Session.role user) = Some d →
               d = target ∧ viewPath = routes !! d
               ∧ init = Some (dashboardInitializer d (Some user)))
            ∧ ∃ w', handleLocation (S (S n)) w = (Return (), w')
                    ∧ navigated [target] viewPath init w w')
    as (viewPath & init & Hknown & w' & Hrun & Hnav).
  { destruct Hcase as [[Hrole Hpath] | [[Hrole Hpath] | [Hrole Hpath]]].
    - exists (routes !! "/admin-dashboard"),
        (Some (dashboardInitializer "/admin-dashboard" (Some user))).
      unfold target. rewrite Hrole. cbn -[routes].
      split; [by intros d [= <-]|].
      apply (redirect_from_visitor_dashboard n w [] _ _ user Hs Hpath);
        [by rewrite Hrole|].
      intros w2 Hls Hp.
      apply (land_dashboard n w2 user "/admin-dashboard");
        [by rewrite Hls|by rewrite Hrole|done].
    - exists (routes !! "/visitor-dashboard"),
        (Some (dashboardInitializer "/visitor-dashboard" (Some user))).
      unfold target. rewrite Hrole. cbn -[routes].
      split; [by intros d [= <-]|].
      apply (redirect_from_admin_dashboard n w [] _ _ user Hs Hpath);
        [by rewrite Hrole|by rewrite Hrole|].
      intros w2 Hls Hp.
      apply (land_dashboard n w2 user "/visitor-dashboard");
        [by rewrite Hls|by rewrite Hrole|done].
    - exists None, None. split; [by rewrite Hrole|].
      pose proof Hrole as Hunknown. unfold roleDashboard in Hunknown.
      destruct (Session.role user =? "administrator") eqn:Hadmin; [done|].
      unfold target.
      destruct (Session.role user =? "visitor") eqn:Hvisitor; [done|].
      apply (redirect_from_visitor_dashboard n w [] _ _ user Hs Hpath Hvisitor).
      intros w2 Hls Hp.
      apply (land_admin_unknown n w2 user); [by rewrite Hls|done|done]. }
  exists w'. pose proof Hnav as (Hhist & Hp & _).
  split; [done|]. split; [exact Hhist|]. split; [exact Hp|].
  split; [done|]. intros d Hd.
  destruct (Hknown d Hd) as (-> & -> & ->). split; [done|].
  exact (navigated_view_requests _ _ _ _ _ Hnav).
Qed.

Lemma mismatched_dashboard_redirects_witness :
  ∃ w',
    handleLocation 2 (sampleWorld (Some admin) "/visitor-dashboard" ∅ [])
    = (Return (), w')
    ∧ history w' = ["/admin-dashboard"]
    ∧ pathname w' = "/admin-dashboard"
    ∧ "/admin-dashboard" ≠ "/login"
    ∧ (∀ d, roleDashboard "administrator" = Some d →
         d = "/admin-dashboard"
         ∧ ∃ rs,
             requests w' = GetView (routes !! d) :: rs
             ∧ ∀ view, GetView view ∈ rs → view = Some "src/views/404.html").
Proof.
  exact (mismatched_dashboard_redirects 0
           (sampleWorld (Some admin) "/visitor-dashboard" ∅ [])
           (sessionOf admin) eq_refl (or_introl (conj eq_refl eq_refl))).
Defined.

(** C7 as stated fails: a session with role "moderator" on
    /visitor-dashboard ends on /admin-dashboard, and /login is never
    entered. *)
Lemma inconsistent_session_not_sent_to_login :
  ∃ w',
    handleLocation 3 (sampleWorld (Some moderator) "/visitor-dashboard" ∅ [])
    = (Return (), w')
    ∧ history w' = ["/admin-dashboard"]
    ∧ pathname w' = "/admin-dashboard"
    ∧ "/login" ∉ history w'.
Proof.
  eexists. split; [vm_compute; reflexivity|]. split; [reflexivity|].
  split; [reflexivity|]. cbn.
  intros Hin. apply list_elem_of_singleton in Hin. discriminate Hin.
Qed.

(** ** Every navigation comes to an end *)

Lemma returned_settles fuel hops viewPath init w :
  (∃ w', handleLocation fuel w = (Return (), w')
         ∧ navigated hops viewPath init w w') →
  settles fuel hops viewPath init w.
Proof. intros (w' & Hrun & Hnav). by exists (Return ()), w'. Qed.

(** With fuel for three location handlers the router never runs out: from
    every world a navigation ends after at most two redirects. *)
Lemma handleLocation_settles n w :
  ∃ hops viewPath init,
    settles (S (S (S n))) hops viewPath init w ∧ (length hops ≤ 2)%nat.
Proof.
  destruct (decide (pathname w ∈ ["/"; "/home"; "/login"; "/register";
                                  "/admin-dashboard"; "/visitor-dashboard"]))
    as [Hin|Hnot];
    [|eexists [], _, _; split; [by apply land_not_found|cbn; lia]].
  assert (pathname w = "/" ∨ pathname w = "/home"
          ∨ (pathname w = "/login" ∨ pathname w = "/register")
          ∨ pathname w = "/admin-dashboard"
          ∨ pathname w = "/visitor-dashboard")
    as [Hhome | [Hhome | [Hguest | Hdash]]]
    by (repeat (apply elem_of_cons in Hin as [Hp|Hin]; [tauto|]);
        by apply elem_of_nil in Hin);
    [eexists [], _, _; split; [apply land_home; by left|cbn; lia]
    |eexists [], _, _; split; [apply land_home; by right|cbn; lia]
    | |].
  - (* /login and /register *)
    destruct (localStorage w !! USER_INFO_KEY) as [user|] eqn:Hs.
    2:{ destruct Hguest as [Hp|Hp]; eexists [], _, _;
          (split; [|cbn; lia]); [by apply land_login|by apply land_register]. }
    destruct (roleDashboard (Session.role user)) as [d|] eqn:Hd.
    + eexists [_], _, _. split; [|cbn; lia].
      apply returned_settles, (redirect_guest _ _ _ _ _ user Hs Hguest).
      intros w2 Hls Hp. apply (land_dashboard _ w2 user d); [by rewrite Hls|done|].
      rewrite Hp. unfold roleDashboard in Hd.
      destruct (Session.role user =? "administrator"); [by injection Hd|].
      destruct (Session.role user =? "visitor"); [by injection Hd|done].
    + pose proof Hd as Hunknown. unfold roleDashboard in Hunknown.
      destruct (Session.role user =? "administrator") eqn:Hadmin; [done|].
      destruct (Session.role user =? "visitor") eqn:Hvisitor; [done|].
      eexists [_; _], _, _. split; [|cbn; lia].
      apply returned_settles, (redirect_guest _ _ _ _ _ user Hs Hguest).
      rewrite Hadmin. intros w2 Hls Hp.
      apply returned_settles, (redirect_from_visitor_dashboard _ w2 _ _ _ user);
        [by rewrite Hls|done|done|].
      intros w3 Hls3 Hp3.
      apply (land_admin_unknown _ w3 user); [by rewrite Hls3, Hls|done|done].
  - (* the dashboards *)
    destruct (localStorage w !! USER_INFO_KEY) as [user|] eqn:Hs.
    2:{ eexists [_], _, _. split; [|cbn; lia].
        by apply returned_settles, redirect_login. }
    destruct (Session.role user =? "visitor") eqn:Hvisitor.
    + assert (roleDashboard (Session.role user) = Some "/visitor-dashboard")
        as Hd by (apply String.eqb_eq in Hvisitor; by rewrite Hvisitor).
      destruct Hdash as [Hp|Hp].
      * eexists [_], _, _. split; [|cbn; lia].
        apply returned_settles,
          (redirect_from_admin_dashboard _ _ _ _ _ user Hs Hp);
          [apply String.eqb_eq in Hvisitor; by rewrite Hvisitor|done|].
        intros w2 Hls Hp2.
        apply (land_dashboard _ w2 user "/visitor-dashboard");
          [by rewrite Hls|done|done].
      * eexists [], _, _. split; [|cbn; lia].
        by apply (land_dashboard _ w user "/visitor-dashboard").
    + destruct (Session.role user =? "administrator") eqn:Hadmin.
      * assert (roleDashboard (Session.role user) = Some "/admin-dashboard")
          as Hd by (unfold roleDashboard; by rewrite Hadmin).
        destruct Hdash as [Hp|Hp].
        -- eexists [], _, _. split; [|cbn; lia].
           by apply (land_dashboard _ w user "/admin-dashboard").
        -- eexists [_], _, _. split; [|cbn; lia].
           apply returned_settles,
             (redirect_from_visitor_dashboard _ _ _ _ _ user Hs Hp Hvisitor).
           intros w2 Hls Hp2.
           apply (land_dashboard _ w2 user "/admin-dashboard");
             [by rewrite Hls|done|done].
      * assert (roleDashboard (Session.role user) = None)
          as Hd by (unfold roleDashboard; by rewrite Hadmin, Hvisitor).
        destruct Hdash as [Hp|Hp].
        -- eexists [], _, _. split; [|cbn; lia].
           by apply (land_admin_unknown _ w user).
        -- eexists [_], _, _. split; [|cbn; lia].
           apply returned_settles,
             (redirect_from_visitor_dashboard _ _ _ _ _ user Hs Hp Hvisitor).
           intros w2 Hls Hp2.
           apply (land_admin_unknown _ w2 user); [by rewrite Hls|done|done].
Qed.

(** ** The home alias *)

(** C10. On the path / and on the path /home alike, whatever the session,
    the handler redirects nowhere and loads the view of the route "/",
    which is the home view and not the not-found view, with no
    initializer. *)
Theorem home_alias n w :
  pathname w = "/" ∨ pathname w = "/home" →
  ∃ res w',
    handleLocation (S n) w = (res, w')
    ∧ res ≠ OutOfFuel
    ∧ navigated [] (routes !! "/") None w w'
    ∧ routes !! "/" = Some "src/views/home.html"
    ∧ routes !! "/" ≠ routes !! "/404".
Proof.
  intros Hpath.
  destruct (land_home n w Hpath) as (res & w' & Hrun & Hfuel & Hnav).
  exists res, w'. split; [done|]. split; [done|].
  rewrite routes_home. split; [exact Hnav|]. split; [done|].
  by rewrite routes_404.
Qed.

Lemma home_alias_witness :
  ∃ res w',
    handleLocation 1 (sampleWorld (Some visitor1) "/home" ∅ []) = (res, w')
    ∧ res ≠ OutOfFuel
    ∧ navigated [] (routes !! "/") None
        (sampleWorld (Some visitor1) "/home" ∅ []) w'
    ∧ routes !! "/" = Some "src/views/home.html"
    ∧ routes !! "/" ≠ routes !! "/404".
Proof.
  exact (home_alias 0 (sampleWorld (Some visitor1) "/home" ∅ [])
           (or_intror eq_refl)).
Defined.

(** * Further properties *)

(** ** The session store *)

(** X1. After [saveUserInfo user] the current user is the [{id, email,
    role}] of [user], whatever session was stored before, the browser is
    authenticated, and no other key of localStorage has changed. *)
Theorem saveUserInfo_roundtrip user w :
  ∃ w',
    saveUserInfo user w = (Return (), w')
    ∧ getCurrentUser w'
      = (Return (Some (Session.mk (User.id user) (User.email user)
                         (User.role user))), w')
    ∧ isAuthenticated w' = (Return true, w')
    ∧ ∀ key, key ≠ USER_INFO_KEY → localStorage w' !! key = localStorage w !! key.
Proof.
  eexists. split; [reflexivity|]. unfold getCurrentUser, isAuthenticated, get.
  cbn. rewrite lookup_insert_eq. split; [done|]. split; [done|].
  intros key Hkey. by rewrite lookup_insert_ne.
Qed.

(** X2. After [logOut] there is no current user and the browser is not
    authenticated, whether or not there was a session; a second [logOut]
    changes nothing more, and no other key of localStorage is touched. *)
Theorem logOut_clears w :
  ∃ w',
    logOut w = (Return (), w')
    ∧ getCurrentUser w' = (Return None, w')
    ∧ isAuthenticated w' = (Return false, w')
    ∧ logOut w' = (Return (), w')
    ∧ ∀ key, key ≠ USER_INFO_KEY → localStorage w' !! key = localStorage w !! key.
Proof.
  eexists. split; [reflexivity|]. unfold getCurrentUser, isAuthenticated, get.
  cbn. rewrite lookup_delete_eq. split; [done|]. split; [done|]. split.
  - unfold logOut, modify, set_localStorage. cbn.
    by rewrite delete_delete_eq.
  - intros key Hkey. by rewrite lookup_delete_ne.
Qed.

(** ** Leaving and joining events *)

Lemma withdrawn_fields uid e :
  withdrawn uid e
  = Event.mk (Event.title e) (Event.description e) (Event.location e)
      (Event.date e) (Event.capacity e)
      (filter (λ id, id ≠ uid) (Event.attendees e)).
Proof. done. Qed.

Lemma unregisterFromEvent_patched eventId w user event :
  localStorage w !! USER_INFO_KEY = Some user →
  faultAt 0 w = None → faultAt 1 w = None →
  events w !! eventId = Some event →
  unregisterFromEvent eventId w
  = (Return (Some (withdrawn (Session.id user) event)),
     set_events <[eventId := withdrawn (Session.id user) event]>
       (sent (PatchEvent eventId
                (Event.attendeesOnly
                   (filter (λ id, id ≠ Session.id user) (Event.attendees event))))
          (sent (GetEvent eventId) w))).
Proof.
  intros Hs Hf Hf1 He.
  unfold unregisterFromEvent, getCurrentUser, get, mbind, M_bind.
  rewrite Hs. unfold tryCatch.
  rewrite (fetch_GetEvent_found _ _ _ Hf He). cbn.
  rewrite (fetch_PatchEvent_found eventId _ event); [done| |done].
  by rewrite faultAt_sent.
Qed.

(** Every run of [unregisterFromEvent] either leaves the events of the
    store as they were or replaces the fetched event by its [withdrawn]
    version. *)
Lemma unregisterFromEvent_events eventId w :
  events (unregisterFromEvent eventId w).2 = events w
  ∨ ∃ user e,
      localStorage w !! USER_INFO_KEY = Some user
      ∧ events w !! eventId = Some e
      ∧ events (unregisterFromEvent eventId w).2
        = <[eventId := withdrawn (Session.id user) e]> (events w).
Proof.
  destruct (localStorage w !! USER_INFO_KEY) as [user|] eqn:Hs.
  2:{ left. unfold unregisterFromEvent, getCurrentUser, get, mbind, M_bind.
      by rewrite Hs. }
  destruct (faultAt 0 w) as [f|] eqn:Hf.
  { left. unfold unregisterFromEvent, getCurrentUser, get, mbind, M_bind.
    rewrite Hs. unfold tryCatch, fetch. rewrite Hf. by destruct f. }
  destruct (events w !! eventId) as [e|] eqn:He.
  2:{ left. unfold unregisterFromEvent, getCurrentUser, get, mbind, M_bind.
      rewrite Hs. unfold tryCatch, fetch. rewrite Hf. cbn. by rewrite He. }
  destruct (faultAt 1 w) as [f|] eqn:Hf1.
  - left. unfold unregisterFromEvent, getCurrentUser, get, mbind, M_bind.
    rewrite Hs. unfold tryCatch.
    rewrite (fetch_GetEvent_found _ _ _ Hf He). cbn.
    unfold fetch. rewrite faultAt_sent, Hf1. by destruct f.
  - right. exists user, e. repeat split; try done.
    by rewrite (unregisterFromEvent_patched _ _ _ _ Hs Hf Hf1 He).
Qed.

(** X3. With a session and both requests going through,
    [unregisterFromEvent] returns the stored event with every occurrence
    of the user's id removed from [attendees]: the other attendees keep
    their order, the other fields their values, and the PATCH carries the
    [attendees] field only. *)
Theorem unregisterFromEvent_removes eventId w user event :
  localStorage w !! USER_INFO_KEY = Some user →
  faultAt 0 w = None → faultAt 1 w = None →
  events w !! eventId = Some event →
  ∃ event' w',
    unregisterFromEvent eventId w = (Return (Some event'), w')
    ∧ events w' = <[eventId := event']> (events w)
    ∧ event'
      = Event.mk (Event.title event) (Event.description event)
          (Event.location event) (Event.date event) (Event.capacity event)
          (filter (λ id, id ≠ Session.id user) (Event.attendees event))
    ∧ (Session.id user ∉ Event.attendees event')
    ∧ (∀ id, id ≠ Session.id user →
         id ∈ Event.attendees event' ↔ id ∈ Event.attendees event)
    ∧ requests w'
      = requests w
        ++ [GetEvent eventId;
            PatchEvent eventId
              (Event.mkPatch None None None None None
                 (Some (Event.attendees event')))].
Proof.
  intros Hs Hf Hf1 He.
  rewrite (unregisterFromEvent_patched _ _ _ _ Hs Hf Hf1 He).
  eexists _, _. split; [reflexivity|]. split; [done|].
  rewrite withdrawn_fields. split; [done|]. cbn. split; [|split].
  - intros [Hne _]%list_elem_of_filter. done.
  - intros id Hid. rewrite list_elem_of_filter. tauto.
  - by rewrite <- app_assoc.
Qed.

Lemma unregisterFromEvent_removes_witness :
  ∃ event' w',
    unregisterFromEvent "7"
      (sampleWorld (Some visitor1) "/visitor-dashboard"
         {[ "7" := meetup 3 [IdNum 5; IdNum 2; IdStr "a3f"] ]} [])
    = (Return (Some event'), w')
    ∧ events w' = <["7" := event']> {[ "7" := meetup 3 [IdNum 5; IdNum 2; IdStr "a3f"] ]}
    ∧ event' = meetup 3 [IdNum 5; IdStr "a3f"]
    ∧ (IdNum 2 ∉ Event.attendees event')
    ∧ (∀ id, id ≠ IdNum 2 →
         id ∈ Event.attendees event' ↔ id ∈ [IdNum 5; IdNum 2; IdStr "a3f"])
    ∧ requests w'
      = [GetEvent "7";
         PatchEvent "7"
           (Event.mkPatch None None None None None
              (Some (Event.attendees event')))].
Proof.
  exact (unregisterFromEvent_removes "7"
           (sampleWorld (Some visitor1) "/visitor-dashboard"
              {[ "7" := meetup 3 [IdNum 5; IdNum 2; IdStr "a3f"] ]} [])
           (sessionOf visitor1) (meetup 3 [IdNum 5; IdNum 2; IdStr "a3f"])
           eq_refl eq_refl eq_refl eq_refl).
Defined.

Lemma filter_other_app_self (uid : Id) (l : list Id) :
  uid ∉ l → filter (λ id, id ≠ uid) (l ++ [uid]) = l.
Proof.
  intros Hnot. rewrite filter_app, (filter_other_absent _ _ Hnot).
  rewrite filter_cons_False by (by intros ?). by rewrite filter_nil, app_nil_r.
Qed.

(** X4. Enrolling and then leaving is a round trip: for a user the event
    does not list, with room left and the four requests going through,
    [registerForEvent] followed by [unregisterFromEvent] returns the event
    as it was and leaves the events of the store as they were. *)
Theorem register_then_unregister eventId w user event :
  localStorage w !! USER_INFO_KEY = Some user →
  (∀ k, (k < 4)%nat → faultAt k w = None) →
  events w !! eventId = Some event →
  isFull event = false →
  Session.id user ∉ Event.attendees event →
  ∃ w',
    (registerForEvent eventId;; unregisterFromEvent eventId) w
    = (Return (Some event), w')
    ∧ events w' = events w.
Proof.
  intros Hs Hf He Hfull Hin. unfold mbind at 1. unfold M_bind at 1.
  rewrite (registerForEvent_patched _ _ _ _ Hs (Hf 0%nat ltac:(lia)) He Hfull Hin
             (Hf 1%nat ltac:(lia))).
  set (w1 := set_events _ _).
  rewrite (unregisterFromEvent_patched eventId w1 user
             (enrolled (Session.id user) event)).
  - assert (withdrawn (Session.id user) (enrolled (Session.id user) event) = event)
      as ->.
    { rewrite withdrawn_fields, enrolled_fields. cbn.
      rewrite (filter_other_app_self _ _ Hin). by destruct event. }
    eexists. split; [reflexivity|]. cbn.
    rewrite insert_insert_eq. by apply insert_id.
  - done.
  - unfold w1. change (faultAt 0 (set_events ?f ?x)) with (faultAt 0 x).
    rewrite !faultAt_sent. apply Hf. lia.
  - unfold w1. change (faultAt 1 (set_events ?f ?x)) with (faultAt 1 x).
    rewrite !faultAt_sent. apply Hf. lia.
  - apply lookup_insert_eq.
Qed.

Lemma register_then_unregister_witness :
  ∃ w',
    (registerForEvent "7";; unregisterFromEvent "7") roomy
    = (Return (Some (meetup 3 [IdNum 5])), w')
    ∧ events w' = events roomy.
Proof.
  refine (register_then_unregister "7" roomy (sessionOf visitor1)
            (meetup 3 [IdNum 5]) eq_refl _ eq_refl eq_refl _).
  - intros k _. unfold faultAt. cbn. by rewrite lookup_nil.
  - intros Hin. apply list_elem_of_singleton in Hin. discriminate Hin.
Defined.

(** X5. Enrolling twice in a row: when the first [registerForEvent]
    succeeds, the second one returns [null], sends no PATCH, shows one
    message, and the user's id stays in [attendees] once, at the end. *)
Theorem register_twice_refused eventId w user event :
  localStorage w !! USER_INFO_KEY = Some user →
  (∀ k, (k < 3)%nat → faultAt k w = None) →
  events w !! eventId = Some event →
  isFull event = false →
  Session.id user ∉ Event.attendees event →
  ∃ w1 w2 msg,
    registerForEvent eventId w
    = (Return (Some (enrolled (Session.id user) event)), w1)
    ∧ registerForEvent eventId w1 = (Return None, w2)
    ∧ requests w2 = requests w1 ++ [GetEvent eventId]
    ∧ alerts w2 = alerts w1 ++ [msg]
    ∧ events w2 !! eventId
      = Some (Event.mk (Event.title event) (Event.description event)
                (Event.location event) (Event.date event)
                (Event.capacity event)
                (Event.attendees event ++ [Session.id user])).
Proof.
  intros Hs Hf He Hfull Hin.
  rewrite (registerForEvent_patched _ _ _ _ Hs (Hf 0%nat ltac:(lia)) He Hfull Hin
             (Hf 1%nat ltac:(lia))).
  set (w1 := set_events _ _).
  assert (localStorage w1 !! USER_INFO_KEY = Some user) as Hs1 by done.
  assert (faultAt 0 w1 = None) as Hf1.
  { unfold w1. change (faultAt 0 (set_events ?f ?x)) with (faultAt 0 x).
    rewrite !faultAt_sent. apply Hf. lia. }
  assert (events w1 !! eventId = Some (enrolled (Session.id user) event)) as He1
    by apply lookup_insert_eq.
  assert (Session.id user ∈ Event.attendees (enrolled (Session.id user) event))
    as Hin1.
  { rewrite enrolled_fields. cbn. apply elem_of_app. right. left. }
  exists w1.
  destruct (isFull (enrolled (Session.id user) event)) eqn:Hfull1.
  - rewrite (registerForEvent_full _ _ _ _ Hs1 Hf1 He1 Hfull1).
    eexists _, _. split; [done|]. split; [done|]. by repeat split.
  - rewrite (registerForEvent_duplicate _ _ _ _ Hs1 Hf1 He1 Hfull1 Hin1).
    eexists _, _. split; [done|]. split; [done|]. by repeat split.
Qed.

Lemma register_twice_refused_witness :
  ∃ w1 w2 msg,
    registerForEvent "7" roomy
    = (Return (Some (enrolled (IdNum 2) (meetup 3 [IdNum 5]))), w1)
    ∧ registerForEvent "7" w1 = (Return None, w2)
    ∧ requests w2 = requests w1 ++ [GetEvent "7"]
    ∧ alerts w2 = alerts w1 ++ [msg]
    ∧ events w2 !! "7" = Some (meetup 3 [IdNum 5; IdNum 2]).
Proof.
  refine (register_twice_refused "7" roomy (sessionOf visitor1)
            (meetup 3 [IdNum 5]) eq_refl _ eq_refl eq_refl _).
  - intros k _. unfold faultAt. cbn. by rewrite lookup_nil.
  - intros Hin. apply list_elem_of_singleton in Hin. discriminate Hin.
Defined.

(** ** What enrolling and leaving keep *)

Lemma registerForEvent_attendeesDistinct eventId w :
  attendeesDistinct w → attendeesDistinct (registerForEvent eventId w).2.
Proof.
  unfold attendeesDistinct. intros Hw.
  destruct (registerForEvent_events eventId w)
    as [->|(user & e & _ & He & _ & Hin & ->)]; [done|].
  apply map_Forall_insert_2; [|done]. rewrite enrolled_fields. cbn.
  apply NoDup_app. split; [by apply (Hw eventId)|]. split; [|apply NoDup_singleton].
  intros x Hx ->%list_elem_of_singleton. done.
Qed.

Lemma unregisterFromEvent_keeps eventId w :
  (capacityRespected w → capacityRespected (unregisterFromEvent eventId w).2)
  ∧ (attendeesDistinct w → attendeesDistinct (unregisterFromEvent eventId w).2).
Proof.
  unfold capacityRespected, attendeesDistinct.
  destruct (unregisterFromEvent_events eventId w)
    as [->|(user & e & _ & He & ->)]; [done|].
  split; intros Hw; (apply map_Forall_insert_2; [|done]);
    rewrite withdrawn_fields; cbn.
  - pose proof (Hw eventId e He) as Hcap. unfold withinCapacity in *. cbn.
    pose proof (length_filter (λ id, id ≠ Session.id user) (Event.attendees e)).
    lia.
  - apply NoDup_filter. by apply (Hw eventId).
Qed.

Lemma fetch_outcome r w :
  (∃ resp w', fetch r w = (Return resp, w'))
  ∨ (∃ err w', fetch r w = (Throw err, w')).
Proof.
  unfold fetch. destruct (faultAt 0 w) as [[]|].
  - right. by eexists _, _.
  - left. by eexists _, _.
  - left. destruct (serve r (sent r w)). by eexists _, _.
Qed.

(** The two operations catch whatever goes wrong: they always return. *)
Lemma registerForEvent_returns eventId w :
  ∃ r w', registerForEvent eventId w = (Return r, w').
Proof.
  unfold registerForEvent, getCurrentUser, get, mbind, M_bind, tryCatch.
  destruct (localStorage w !! USER_INFO_KEY); [|by eexists _, _].
  destruct (fetch_outcome (GetEvent eventId) w)
    as [(resp & w1 & ->)|(err & w1 & ->)]; [|by eexists _, _].
  destruct (negb (ok resp)); [by eexists _, _|].
  unfold json_event. destruct (body resp); cbn; try by eexists _, _.
  destruct (isFull e); [by eexists _, _|].
  destruct (bool_decide _); [by eexists _, _|].
  match goal with
  | |- context [fetch ?r ?w2] =>
      destruct (fetch_outcome r w2) as [(resp' & w3 & ->)|(err & w3 & ->)]
  end; [|by eexists _, _].
  destruct (negb (ok resp')); [by eexists _, _|].
  destruct (body resp'); cbn; by eexists _, _.
Qed.

Lemma unregisterFromEvent_returns eventId w :
  ∃ r w', unregisterFromEvent eventId w = (Return r, w').
Proof.
  unfold unregisterFromEvent, getCurrentUser, get, mbind, M_bind, tryCatch.
  destruct (localStorage w !! USER_INFO_KEY); [|by eexists _, _].
  destruct (fetch_outcome (GetEvent eventId) w)
    as [(resp & w1 & ->)|(err & w1 & ->)]; [|by eexists _, _].
  destruct (negb (ok resp)); [by eexists _, _|].
  unfold json_event. destruct (body resp); cbn; try by eexists _, _.
  match goal with
  | |- context [fetch ?r ?w2] =>
      destruct (fetch_outcome r w2) as [(resp' & w3 & ->)|(err & w3 & ->)]
  end; [|by eexists _, _].
  destruct (negb (ok resp')); [by eexists _, _|].
  destruct (body resp'); cbn; by eexists _, _.
Qed.

(** X6. Whatever visitors do one after the other on the dashboard, as
    whoever, to whichever events and whatever requests fail: if every
    stored event was within its capacity and listed no attendee twice, so
    it is afterwards, and the sequence of actions comes to its end. *)
Theorem visitorActions_keep_store acts : ∀ w,
  capacityRespected w → attendeesDistinct w →
  ∃ w',
    visitorActions acts w = (Return (), w')
    ∧ capacityRespected w' ∧ attendeesDistinct w'.
Proof.
  induction acts as [|[u eventId|u eventId] acts IH]; intros w Hcap Hdis.
  - by exists w.
  - cbn [visitorActions]. unfold mbind, M_bind, saveUserInfo, modify.
    set (w1 := set_localStorage _ w).
    pose proof (registerForEvent_capacityRespected eventId w1 Hcap) as Hcap2.
    pose proof (registerForEvent_attendeesDistinct eventId w1 Hdis) as Hdis2.
    destruct (registerForEvent_returns eventId w1) as (r & w2 & Hrun).
    rewrite Hrun in *. by apply IH.
  - cbn [visitorActions]. unfold mbind, M_bind, saveUserInfo, modify.
    set (w1 := set_localStorage _ w).
    destruct (unregisterFromEvent_keeps eventId w1) as [Hcap2 Hdis2].
    specialize (Hcap2 Hcap). specialize (Hdis2 Hdis).
    destruct (unregisterFromEvent_returns eventId w1) as (r & w2 & Hrun).
    rewrite Hrun in *. by apply IH.
Qed.

Lemma visitorActions_keep_store_witness :
  ∃ w',
    visitorActions
      [Enrol visitor1 "7"; Enrol visitor2 "7"; Enrol admin "7";
       Leave visitor1 "7"; Leave visitor2 "8"]
      (sampleWorld None "/visitor-dashboard" {[ "7" := meetup 2 [] ]}
         [None; None; None; Some HttpError])
    = (Return (), w')
    ∧ capacityRespected w' ∧ attendeesDistinct w'.
Proof.
  apply (visitorActions_keep_store
           [Enrol visitor1 "7"; Enrol visitor2 "7"; Enrol admin "7";
            Leave visitor1 "7"; Leave visitor2 "8"]
           (sampleWorld None "/visitor-dashboard" {[ "7" := meetup 2 [] ]}
              [None; None; None; Some HttpError])).
  - apply map_Forall_singleton. unfold withinCapacity. simpl. lia.
  - apply map_Forall_singleton. simpl. apply NoDup_nil_2.
Defined.

(** A request, whatever becomes of it, leaves the browser's session and
    location, the users of the store and the messages shown as they are. *)
Lemma fetch_frame r w :
  ∃ out w',
    fetch r w = (out, w')
    ∧ out ≠ OutOfFuel
    ∧ localStorage w' = localStorage w
    ∧ users w' = users w
    ∧ pathname w' = pathname w
    ∧ history w' = history w
    ∧ alerts w' = alerts w.
Proof.
  unfold fetch. destruct (faultAt 0 w) as [[]|]; [by eexists _, _..|].
  destruct r as [v|email password|eventId|eventId p]; cbn.
  - destruct v as [src|]; [destruct (bool_decide _)|]; by eexists _, _.
  - by eexists _, _.
  - destruct (events w !! eventId); by eexists _, _.
  - destruct (events w !! eventId); by eexists _, _.
Qed.

(** Walk through one of the two operations, request by request. *)
Ltac through_requests :=
  repeat match goal with
         | |- context [fetch ?r ?w0] =>
             let out := fresh "out" in
             let w1 := fresh "w" in
             destruct (fetch_frame r w0)
               as (out & w1 & -> & ? & ? & ? & ? & ? & ?);
             destruct out as [[[] []]|?|]; cbn; try done
         | |- context [isFull ?e] => destruct (isFull e); cbn
         | |- context [bool_decide ?P] => destruct (bool_decide P); cbn
         end;
  cbn in *; repeat split; congruence.

(** X7. [registerForEvent] and [unregisterFromEvent] touch nothing but the
    event they are called for: in every run the session, the users of the
    store, the current path, the history and every other event are as
    before. *)
Theorem enrolment_frame eventId w :
  (let w' := (registerForEvent eventId w).2 in
   localStorage w' = localStorage w ∧ users w' = users w
   ∧ pathname w' = pathname w ∧ history w' = history w
   ∧ ∀ id, id ≠ eventId → events w' !! id = events w !! id)
  ∧ (let w' := (unregisterFromEvent eventId w).2 in
     localStorage w' = localStorage w ∧ users w' = users w
     ∧ pathname w' = pathname w ∧ history w' = history w
     ∧ ∀ id, id ≠ eventId → events w' !! id = events w !! id).
Proof.
  split; cbv zeta.
  - assert (∀ id, id ≠ eventId →
              events (registerForEvent eventId w).2 !! id = events w !! id) as Hev.
    { intros id Hid. destruct (registerForEvent_events eventId w)
        as [->|(user & e & _ & _ & _ & _ & ->)]; [done|].
      by rewrite lookup_insert_ne. }
    repeat (split; [|try exact Hev]); clear Hev;
      unfold registerForEvent, getCurrentUser, get, mbind, M_bind, tryCatch,
        json_event, alert, console_log, modify, throw, mret, M_ret;
      (destruct (localStorage w !! USER_INFO_KEY) as [user|]; [|done]);
      through_requests.
  - assert (∀ id, id ≠ eventId →
              events (unregisterFromEvent eventId w).2 !! id = events w !! id) as Hev.
    { intros id Hid. destruct (unregisterFromEvent_events eventId w)
        as [->|(user & e & _ & _ & ->)]; [done|].
      by rewrite lookup_insert_ne. }
    repeat (split; [|try exact Hev]); clear Hev;
      unfold unregisterFromEvent, getCurrentUser, get, mbind, M_bind, tryCatch,
        json_event, alert, console_log, modify, throw, mret, M_ret;
      (destruct (localStorage w !! USER_INFO_KEY) as [user|]; [|done]);
      through_requests.
Qed.

(** X8. When the read of the event fails (a network failure, an error
    status, or no event with that id), [registerForEvent] and
    [unregisterFromEvent] return [null] after that one request: no PATCH
    is sent, the events are untouched, and the user is shown no message;
    only the console gets a line. *)
Theorem enrolment_read_failure eventId w user :
  localStorage w !! USER_INFO_KEY = Some user →
  faultAt 0 w ≠ None ∨ events w !! eventId = None →
  (∃ w', registerForEvent eventId w = (Return None, w')
         ∧ requests w' = requests w ++ [GetEvent eventId]
         ∧ events w' = events w ∧ alerts w' = alerts w
         ∧ length (console w') = S (length (console w)))
  ∧ (∃ w', unregisterFromEvent eventId w = (Return None, w')
           ∧ requests w' = requests w ++ [GetEvent eventId]
           ∧ events w' = events w ∧ alerts w' = alerts w
           ∧ length (console w') = S (length (console w))).
Proof.
  intros Hs Hfail.
  unfold registerForEvent, unregisterFromEvent, getCurrentUser, get, mbind,
    M_bind, tryCatch.
  rewrite Hs. unfold fetch.
  destruct (faultAt 0 w) as [[]|] eqn:Hf; cbn.
  1,2: split; eexists; (split; [reflexivity|]); cbn;
    rewrite length_app; cbn; repeat split; lia.
  destruct Hfail as [?|He]; [done|]. rewrite He. cbn.
  split; eexists; (split; [reflexivity|]); cbn;
    rewrite length_app; cbn; repeat split; lia.
Qed.

Lemma enrolment_read_failure_witness :
  (∃ w', registerForEvent "8" roomy = (Return None, w')
         ∧ requests w' = requests roomy ++ [GetEvent "8"]
         ∧ events w' = events roomy ∧ alerts w' = alerts roomy
         ∧ length (console w') = S (length (console roomy)))
  ∧ (∃ w', unregisterFromEvent "8" roomy = (Return None, w')
           ∧ requests w' = requests roomy ++ [GetEvent "8"]
           ∧ events w' = events roomy ∧ alerts w' = alerts roomy
           ∧ length (console w') = S (length (console roomy))).
Proof.
  exact (enrolment_read_failure "8" roomy (sessionOf visitor1) eq_refl
           (or_intror eq_refl)).
Defined.

(** ** Editing an event *)

(** X9. Saving the edit form of an event that exists, the request going
    through: [updateEvent] with the form's [eventData] returns the stored
    event with the five fields of the form and the attendees it had; one
    PATCH is sent and no other event changes. *)
Theorem updateEvent_form_keeps_attendees eventId w event
    title description location capacity date :
  faultAt 0 w = None →
  events w !! eventId = Some event →
  let event' :=
    Event.mk title description location date capacity (Event.attendees event) in
  ∃ w',
    updateEvent eventId (formEventData title description location capacity date) w
    = (Return (Some event'), w')
    ∧ events w' = <[eventId := event']> (events w)
    ∧ requests w'
      = requests w
        ++ [PatchEvent eventId
              (Event.mkPatch (Some title) (Some description) (Some location)
                 (Some date) (Some capacity) None)].
Proof.
  intros Hf He event'. unfold updateEvent, tryCatch, mbind, M_bind.
  rewrite (fetch_PatchEvent_found _ _ _ _ Hf He). cbn.
  eexists. by split.
Qed.

Lemma updateEvent_form_keeps_attendees_witness :
  ∃ w',
    updateEvent "7" (formEventData "Gala" "Annual gala" "Roof" (Some 9%Z) "2025-09-01") roomy
    = (Return (Some (Event.mk "Gala" "Annual gala" "Roof" "2025-09-01"
                       (Some 9%Z) [IdNum 5])), w')
    ∧ events w'
      = <["7" := Event.mk "Gala" "Annual gala" "Roof" "2025-09-01"
                   (Some 9%Z) [IdNum 5]]> (events roomy)
    ∧ requests w'
      = requests roomy
        ++ [PatchEvent "7"
              (Event.mkPatch (Some "Gala") (Some "Annual gala") (Some "Roof")
                 (Some "2025-09-01") (Some (Some 9%Z)) None)].
Proof.
  exact (updateEvent_form_keeps_attendees "7" roomy (meetup 3 [IdNum 5])
           "Gala" "Annual gala" "Roof" (Some 9%Z) "2025-09-01" eq_refl eq_refl).
Defined.

(** X10. When the PATCH meets a fault or no event has the id,
    [updateEvent] returns [null], and the events of the store are as
    before. *)
Theorem updateEvent_failure eventId eventData w :
  faultAt 0 w ≠ None ∨ events w !! eventId = None →
  ∃ w', updateEvent eventId eventData w = (Return None, w')
        ∧ events w' = events w
        ∧ requests w' = requests w ++ [PatchEvent eventId eventData].
Proof.
  intros Hfail. unfold updateEvent, tryCatch, mbind, M_bind, fetch.
  destruct (faultAt 0 w) as [[]|] eqn:Hf; cbn; [by eexists..|].
  destruct Hfail as [?|He]; [done|]. rewrite He. cbn. by eexists.
Qed.

Lemma updateEvent_failure_witness :
  ∃ w', updateEvent "8" (formEventData "Gala" "" "Roof" None "") roomy
        = (Return None, w')
        ∧ events w' = events roomy
        ∧ requests w'
          = requests roomy
            ++ [PatchEvent "8" (formEventData "Gala" "" "Roof" None "")].
Proof.
  exact (updateEvent_failure "8" (formEventData "Gala" "" "Roof" None "") roomy
           (or_intror eq_refl)).
Defined.

(** X11. [updateEvent] does not look at the attendees: an edit that sets
    the capacity below the number of attendees goes through, and the
    stored event is then over its capacity. *)
Theorem updateEvent_may_overfill eventId w event
    title description location (capacity : Z) date :
  faultAt 0 w = None →
  events w !! eventId = Some event →
  (capacity < Z.of_nat (length (Event.attendees event)))%Z →
  ∃ event' w',
    updateEvent eventId
      (formEventData title description location (Some capacity) date) w
    = (Return (Some event'), w')
    ∧ events w' !! eventId = Some event'
    ∧ ¬ withinCapacity event'
    ∧ ¬ capacityRespected w'.
Proof.
  intros Hf He Hlow. unfold updateEvent, tryCatch, mbind, M_bind.
  rewrite (fetch_PatchEvent_found _ _ _ _ Hf He). cbn.
  eexists _, _. split; [reflexivity|]. cbn.
  split; [apply lookup_insert_eq|].
  assert (¬ withinCapacity
            (applyPatch
               (formEventData title description location (Some capacity) date)
               event)) as Hover.
  { unfold withinCapacity. cbn. lia. }
  split; [done|]. intros Hall. apply Hover.
  apply (Hall eventId). apply lookup_insert_eq.
Qed.

Lemma updateEvent_may_overfill_witness :
  ∃ event' w',
    updateEvent "7" (formEventData "Meetup" "" "Hall" (Some 0%Z) "") roomy
    = (Return (Some event'), w')
    ∧ events w' !! "7" = Some event'
    ∧ ¬ withinCapacity event'
    ∧ ¬ capacityRespected w'.
Proof.
  refine (updateEvent_may_overfill "7" roomy (meetup 3 [IdNum 5])
            "Meetup" "" "Hall" 0%Z "" eq_refl eq_refl _).
  simpl. lia.
Defined.

(** ** The visitor's cards *)

Lemma hasCapacity_isFull event : hasCapacity event = negb (isFull event).
Proof. unfold hasCapacity, isFull. apply Z.ltb_antisym. Qed.

(** X12. The button [renderAvailableEvents] draws agrees with what
    [registerForEvent] does on the same state of the event when its
    requests go through: the button is enabled, and labelled "Register",
    exactly when the enrolment succeeds; it reads "Already Registered"
    exactly when the event lists the user, and "Full" exactly when it does
    not and there is no room. *)
Theorem enrollButton_agrees eventId w user event :
  localStorage w !! USER_INFO_KEY = Some user →
  faultAt 0 w = None → faultAt 1 w = None →
  events w !! eventId = Some event →
  ∃ res w',
    registerForEvent eventId w = (Return res, w')
    ∧ (disabled (enrollButton event user) = false ↔ is_Some res)
    ∧ (label (enrollButton event user) = "Register" ↔ is_Some res)
    ∧ (label (enrollButton event user) = "Already Registered"
       ↔ Session.id user ∈ Event.attendees event)
    ∧ (label (enrollButton event user) = "Full"
       ↔ (Session.id user ∉ Event.attendees event) ∧ isFull event = true).
Proof.
  intros Hs Hf Hf1 He. unfold enrollButton. cbn.
  rewrite hasCapacity_isFull.
  destruct (isFull event) eqn:Hfull;
    destruct (decide (Session.id user ∈ Event.attendees event)) as [Hin|Hin].
  - rewrite (registerForEvent_full _ _ _ _ Hs Hf He Hfull).
    rewrite bool_decide_eq_true_2 by done. eexists _, _. split; [done|]. cbn.
    repeat split; try done; try (by intros []); tauto.
  - rewrite (registerForEvent_full _ _ _ _ Hs Hf He Hfull).
    rewrite bool_decide_eq_false_2 by done. eexists _, _. split; [done|]. cbn.
    repeat split; try done; try (by intros []); tauto.
  - rewrite (registerForEvent_duplicate _ _ _ _ Hs Hf He Hfull Hin).
    rewrite bool_decide_eq_true_2 by done. eexists _, _. split; [done|]. cbn.
    repeat split; try done; try (by intros []); tauto.
  - rewrite (registerForEvent_patched _ _ _ _ Hs Hf He Hfull Hin Hf1).
    rewrite bool_decide_eq_false_2 by done. eexists _, _. split; [done|]. cbn.
    repeat split; try done; try (by intros []); try tauto.
Qed.

Lemma enrollButton_agrees_witness :
  ∃ res w',
    registerForEvent "7" soldOut = (Return res, w')
    ∧ (disabled (enrollButton (meetup 1 [IdNum 5]) (sessionOf visitor1)) = false
       ↔ is_Some res)
    ∧ (label (enrollButton (meetup 1 [IdNum 5]) (sessionOf visitor1)) = "Register"
       ↔ is_Some res)
    ∧ (label (enrollButton (meetup 1 [IdNum 5]) (sessionOf visitor1))
       = "Already Registered"
       ↔ IdNum 2 ∈ [IdNum 5])
    ∧ (label (enrollButton (meetup 1 [IdNum 5]) (sessionOf visitor1)) = "Full"
       ↔ (IdNum 2 ∉ [IdNum 5]) ∧ isFull (meetup 1 [IdNum 5]) = true).
Proof.
  exact (enrollButton_agrees "7" soldOut (sessionOf visitor1)
           (meetup 1 [IdNum 5]) eq_refl eq_refl eq_refl eq_refl).
Defined.

(** X13. The two lists of the visitor dashboard agree: an event is among
    "my events" (with an Unenroll button) exactly when a card of it among
    the available events reads "Already Registered"; and the available
    events are one card per event, in the order received. *)
Theorem myEvents_are_the_registered events user :
  fst <$> renderAvailableEvents events user = events.*1
  ∧ ∀ eventId,
      eventId ∈ renderMyEvents events user
      ↔ ∃ button, (eventId, button) ∈ renderAvailableEvents events user
                  ∧ label button = "Already Registered".
Proof.
  split.
  { unfold renderAvailableEvents. rewrite <- list_fmap_compose.
    apply list_fmap_ext. by intros _ [] _. }
  intros eventId. unfold renderMyEvents, renderAvailableEvents. split.
  - intros ((eid & event) & -> & [Hin Hev]%list_elem_of_filter)%list_elem_of_fmap.
    exists (enrollButton event user). split.
    + apply list_elem_of_fmap. by exists (eid, event).
    + unfold enrollButton. cbn. by rewrite bool_decide_eq_true_2.
  - intros (button & ((eid & event) & [= -> ->] & Hev)%list_elem_of_fmap & Hlabel).
    apply list_elem_of_fmap. exists (eid, event). split; [done|].
    apply list_elem_of_filter. split; [|done].
    unfold enrollButton in Hlabel. cbn in Hlabel.
    destruct (decide (Session.id user ∈ Event.attendees event)) as [|Hnot];
      [done|].
    rewrite bool_decide_eq_false_2 in Hlabel by done.
    by destruct (hasCapacity event).
Qed.

(** ** What every run of the router keeps *)

Lemma faultAt_add_console k msg w : faultAt k (add_console msg w) = faultAt k w.
Proof. done. Qed.

(** [renderNavbar] draws the links of the session, if there is a bar. *)
Lemma renderNavbar_links w :
  renderNavbar w
  = (Return (),
     set_mainNav
       ((λ _, navLinksFor (localStorage w !! USER_INFO_KEY)) <$> mainNav w) w).
Proof.
  unfold renderNavbar, mbind, M_bind, get.
  destruct (mainNav w) as [links|] eqn:Hnav.
  2:{ cbn. by rewrite <- Hnav, set_mainNav_same. }
  rewrite isAuthenticated_run. unfold getCurrentUser, get.
  destruct (localStorage w !! USER_INFO_KEY) as [user|] eqn:Hs.
  - rewrite bool_decide_eq_true_2 by done.
    unfold authAs, roleOf, mbind, mret, M_bind, M_ret, modify. cbn.
    destruct (Session.role user =? "administrator"); [done|].
    by destruct (Session.role user =? "visitor").
  - by rewrite bool_decide_eq_false_2 by (by intros []).
Qed.

(** All that [render] does, field by field. *)
Lemma render_frame isAuth viewPath init w :
  ∃ res w',
    render isAuth viewPath init w = (res, w')
    ∧ res ≠ OutOfFuel
    ∧ (localStorage w' = localStorage w ∧ users w' = users w
       ∧ events w' = events w ∧ alerts w' = alerts w
       ∧ dashboardView w' = dashboardView w ∧ mainNav w' = mainNav w
       ∧ pathname w' = pathname w ∧ history w' = history w)
    ∧ (∃ rs, requests w' = requests w ++ GetView viewPath :: rs
             ∧ (rs = [] ∨ rs = [GetView (Some "src/views/404.html")]))
    ∧ (innerHTML w' = innerHTML w
       ∨ innerHTML w' = Unparsable
       ∨ innerHTML w' = Html "src/views/404.html"
       ∨ ∃ src, viewPath = Some src ∧ src ∈ viewFiles ∧ innerHTML w' = Html src)
    ∧ (faultAt 0 w = None → faultAt 1 w = None →
         res = Return () ∧ logoutBtn w' = isAuth
         ∧ ∃ src, src ∈ viewFiles ∧ innerHTML w' = Html src).
Proof.
  assert ("src/views/404.html" ∈ viewFiles) as H404
    by (unfold viewFiles; repeat constructor).
  unfold render, loadView, tryCatch, mbind, M_bind, mret, M_ret,
    addLogoutButton, get, modify, console_log.
  destruct (fetch_view_cases viewPath w)
    as [[Hf ->]|[[Hno ->]|(src & -> & Hin & ->)]]; cbn -[routes viewFiles].
  3:{ destruct init, isAuth; cbn -[viewFiles]; eexists _, _;
        (split; [reflexivity|]); cbn -[viewFiles];
        rewrite ?app_nil_r; repeat split; eauto 10. }
  all: rewrite routes_404;
    match goal with
    | |- context [fetch ?r ?w1] =>
        destruct (fetch_view_cases (Some "src/views/404.html") w1)
          as [[Hf' ->]|[[Hno' ->]|(src' & [= <-] & Hin' & ->)]]
    end; cbn -[viewFiles];
    rewrite ?faultAt_add_console, ?faultAt_sent in *;
    destruct init, isAuth; cbn -[viewFiles]; eexists _, _;
    (split; [reflexivity|]); cbn -[viewFiles];
    rewrite <- ?app_assoc; cbn -[viewFiles];
    (split; [done|]); (split; [done|]); (split; [eauto|]);
    (split; [eauto 10|]); intros Hnone Hnone1;
    try congruence;
    try (exfalso; eapply Hno'; eauto; fail);
    eauto 10.
Qed.

Lemma routes_register : routes !! "/register" = Some "src/views/register.html".
Proof. reflexivity. Qed.

Lemma mayView_404 user : mayView user (Some "src/views/404.html").
Proof. split; intros Heq; discriminate Heq. Qed.

(** A cycle that ends in [render]. *)
Lemma render_routed w wc viewPath init (isAuth : bool) :
  chrome w wc →
  pathname wc = pathname w →
  dashboardView wc = isDashboardPath (pathname w) →
  isAuth = bool_decide (is_Some (localStorage w !! USER_INFO_KEY)) →
  mayView (localStorage w !! USER_INFO_KEY) viewPath →
  (render isAuth viewPath init wc).1 ≠ OutOfFuel
  → routed w (render isAuth viewPath init wc).1 (render isAuth viewPath init wc).2.
Proof.
  intros (Hls & Hus & Hev & Hal & Hreq & Hhtml & Hfaults & Hnav) Hpath Hdash
    Hauth Hview _.
  destruct (render_frame isAuth viewPath init wc)
    as (res & w' & -> & _ & (Hls' & Hus' & Hev' & Hal' & Hdash' & Hnav' & Hpath' & _)
        & (rs & Hreq' & Hrs) & Hhtml' & Hok).
  cbn. unfold routed. cbv zeta.
  rewrite ?Hls', ?Hus', ?Hev', ?Hal', ?Hdash', ?Hnav', ?Hpath', ?Hreq'.
  rewrite ?Hls, ?Hus, ?Hev, ?Hal, ?Hdash, ?Hnav, ?Hpath, ?Hreq.
  repeat (split; [done|]). split; [|split].
  - exists (GetView viewPath :: rs). split; [done|].
    apply Forall_cons. split; [by exists viewPath|].
    destruct Hrs as [-> | ->]; [done|].
    apply Forall_singleton. eexists. split; [done|]. apply mayView_404.
  - rewrite <- Hhtml.
    destruct Hhtml' as [->|[->|[->|(src & -> & Hin & ->)]]]; eauto 10.
    right; right. exists "src/views/404.html".
    split; [done|]. split; [unfold viewFiles; repeat constructor|].
    apply mayView_404.
  - intros Hf Hf1. rewrite <- Hauth. apply Hok; unfold faultAt; by rewrite Hfaults.
Qed.

(** A cycle that ends in [navigateTo], given what the handler keeps when
    it starts with less fuel. *)
Lemma redirect_routed n path w wc :
  chrome w wc →
  (∀ w0, (handleLocation n w0).1 ≠ OutOfFuel →
         routed w0 (handleLocation n w0).1 (handleLocation n w0).2) →
  (navigateTo_with (handleLocation n) path wc).1 ≠ OutOfFuel
  → routed w (navigateTo_with (handleLocation n) path wc).1
      (navigateTo_with (handleLocation n) path wc).2.
Proof.
  intros (Hls & Hus & Hev & Hal & Hreq & Hhtml & Hfaults & Hnav) IH.
  unfold navigateTo_with, detached, tryCatch, mbind, M_bind, modify.
  specialize (IH (set_location path wc)).
  destruct (handleLocation n (set_location path wc)) as [[[]|err|] w'];
    cbn in *; intros Hfuel; [| |done];
    destruct (IH ltac:(done))
      as (Hls' & Hus' & Hev' & Hal' & Hdash' & Hnav' & (rs & Hreq' & Hrs)
          & Hhtml' & Hok);
    unfold routed; cbv zeta; unfold faultAt in *; cbn in *;
    rewrite ?Hls', ?Hus', ?Hev', ?Hal', ?Hnav', ?Hreq';
    rewrite ?Hls, ?Hus, ?Hev, ?Hal, ?Hnav, ?Hreq;
    rewrite ?Hls in Hrs; rewrite ?Hls, ?Hhtml in Hhtml';
    rewrite ?Hls, ?Hfaults in Hok;
    repeat (split; [done|]);
    (split; [by destruct (mainNav w)|]); (split; [by exists rs|]);
    (split; [done|]); intros Hf Hf1.
  - by apply Hok.
  - destruct Hok as [Hres _]; [done..|]. discriminate Hres.
Qed.

Ltac solve_chrome :=
  unfold chrome; cbn -[navLinksFor isDashboardPath];
  repeat split; try reflexivity;
  match goal with
  | H : localStorage _ !! USER_INFO_KEY = _ |- _ => by rewrite H
  end.

Ltac solve_mayView :=
  unfold mayView;
  rewrite ?routes_home, ?routes_login, ?routes_register, ?routes_admin,
    ?routes_visitor, ?routes_404;
  split; intros Heq; try discriminate Heq; cbn; f_equal;
  by apply String.eqb_eq.

(** The invariant, by induction on the fuel: a cycle ends in [render] or
    hands over to a handler with less fuel. *)
Lemma handleLocation_routed fuel : ∀ w,
  (handleLocation fuel w).1 ≠ OutOfFuel →
  routed w (handleLocation fuel w).1 (handleLocation fuel w).2.
Proof.
  induction fuel as [|n IH]; intros w; [done|].
  cbn [handleLocation].
  unfold mbind, M_bind, getCurrentUser, updateBodyClass, modify, console_log, get.
  rewrite isAuthenticated_run. cbv beta iota delta [get].
  rewrite renderNavbar_links. cbv beta iota.
  assert (∀ (a : bool) v i wc,
            chrome w wc → pathname wc = pathname w →
            dashboardView wc = isDashboardPath (pathname w) →
            a = bool_decide (is_Some (localStorage w !! USER_INFO_KEY)) →
            mayView (localStorage w !! USER_INFO_KEY) v →
            (render a v i wc).1 ≠ OutOfFuel
            → routed w (render a v i wc).1 (render a v i wc).2) as Hrender
    by (intros; by apply render_routed).
  assert (∀ p wc,
            chrome w wc →
            (navigateTo_with (handleLocation n) p wc).1 ≠ OutOfFuel
            → routed w (navigateTo_with (handleLocation n) p wc).1
                (navigateTo_with (handleLocation n) p wc).2) as Hredirect
    by (intros; by apply redirect_routed).
  clear IH.
  destruct (localStorage w !! USER_INFO_KEY) as [user|] eqn:Hs;
    [rewrite bool_decide_eq_true_2 by done
    |rewrite bool_decide_eq_false_2 by (by intros [])];
    rewrite ?bool_decide_eq_true_2 in Hrender by done;
    rewrite ?bool_decide_eq_false_2 in Hrender by (by intros []);
    repeat match goal with
           | |- context [pathname w =? ?s] =>
               destruct (pathname w =? s) eqn:?;
               cbn -[render routes navigateTo_with handleLocation navLinksFor
                     isDashboardPath]
           end;
    unfold authAs, roleOf, mbind, mret, M_bind, M_ret; cbv beta iota;
    repeat match goal with
           | |- context [Session.role user =? ?s] =>
               destruct (Session.role user =? s) eqn:?;
               cbn -[render routes navigateTo_with handleLocation navLinksFor
                     isDashboardPath]
           end;
    first [ apply Hrender; [solve_chrome|reflexivity|reflexivity|reflexivity
                           |solve_mayView]
          | apply Hredirect; solve_chrome ].
Qed.

Lemma handleLocation_enough n w :
  ∃ res w', handleLocation (S (S (S n))) w = (res, w') ∧ res ≠ OutOfFuel.
Proof.
  destruct (handleLocation_settles n w)
    as (hops & v & i & (res & w' & Hrun & Hfuel & _) & _).
  by exists res, w'.
Qed.

Lemma handleLocation_keeps n w :
  ∃ res w',
    handleLocation (S (S (S n))) w = (res, w') ∧ res ≠ OutOfFuel
    ∧ routed w res w'.
Proof.
  destruct (handleLocation_enough n w) as (res & w' & Hrun & Hfuel).
  exists res, w'. split; [done|]. split; [done|].
  pose proof (handleLocation_routed (S (S (S n))) w) as Hinv.
  rewrite Hrun in Hinv. by apply Hinv.
Qed.

(** X14. Navigation always comes to an end.  With fuel for three location
    handlers, [handleLocation] ends after at most two redirects from every
    world, on the last path it was redirected to; and [navigateTo], for
    every path of the application, returns to its caller without an
    exception after at most two further redirects, the path it was given
    being the first new history entry. *)
Theorem navigation_ends n w path :
  path ∈ appPaths →
  (∃ res w' hops,
     handleLocation (S (S (S n))) w = (res, w')
     ∧ res ≠ OutOfFuel
     ∧ (length hops ≤ 2)%nat
     ∧ history w' = history w ++ hops
     ∧ pathname w' = default (pathname w) (last hops))
  ∧ (∃ w' hops,
       navigateTo (S (S (S n))) path w = (Return (), w')
       ∧ (length hops ≤ 2)%nat
       ∧ history w' = history w ++ path :: hops
       ∧ pathname w' = default path (last hops)).
Proof.
  intros _. split.
  - destruct (handleLocation_settles n w)
      as (hops & v & i & (res & w' & Hrun & Hfuel & Hnav) & Hlen).
    destruct Hnav as (Hhist & Hpath & _).
    by exists res, w', hops.
  - destruct (handleLocation_settles n (set_location path w))
      as (hops & v & i & Hsettles & Hlen).
    destruct (navigateTo_with_then (handleLocation (S (S (S n)))) path w
                hops v i Hsettles) as (w' & Hrun & Hnav).
    destruct Hnav as (Hhist & Hpath & _).
    exists w', hops. split; [done|]. split; [done|]. split; [done|].
    rewrite Hpath. apply last_cons_default.
Qed.

Lemma navigation_ends_witness :
  (∃ res w' hops,
     handleLocation 3 (sampleWorld (Some visitor1) "/login" ∅ []) = (res, w')
     ∧ res ≠ OutOfFuel
     ∧ (length hops ≤ 2)%nat
     ∧ history w'
       = history (sampleWorld (Some visitor1) "/login" ∅ []) ++ hops
     ∧ pathname w'
       = default (pathname (sampleWorld (Some visitor1) "/login" ∅ []))
           (last hops))
  ∧ (∃ w' hops,
       navigateTo 3 "/admin-dashboard"
         (sampleWorld (Some visitor1) "/login" ∅ [])
       = (Return (), w')
       ∧ (length hops ≤ 2)%nat
       ∧ history w'
         = history (sampleWorld (Some visitor1) "/login" ∅ [])
           ++ "/admin-dashboard" :: hops
       ∧ pathname w' = default "/admin-dashboard" (last hops)).
Proof.
  refine (navigation_ends 0 (sampleWorld (Some visitor1) "/login" ∅ [])
            "/admin-dashboard" _).
  unfold appPaths. repeat constructor.
Defined.

(** X15. On a root-level path that is none of the six the router knows,
    whatever the session, the handler redirects nowhere and loads the
    not-found view with no initializer; when the request for it meets no
    fault, that view is what #app-root holds. *)
Theorem unknown_path_not_found n w :
  rootLevel (pathname w) = true →
  pathname w ∉ ["/"; "/home"; "/login"; "/register"; "/admin-dashboard";
                "/visitor-dashboard"] →
  ∃ res w',
    handleLocation (S n) w = (res, w')
    ∧ res ≠ OutOfFuel
    ∧ navigated [] (routes !! "/404") None w w'
    ∧ (faultAt 0 w = None → innerHTML w' = Html "src/views/404.html").
Proof.
  intros _ Hpath.
  destruct (land_not_found n w Hpath) as (res & w' & Hrun & Hfuel & Hnav).
  exists res, w'. split; [done|]. split; [done|]. rewrite routes_404.
  split; [done|]. intros Hf.
  destruct Hnav as (_ & _ & _ & _ & _ & _ & Hok).
  apply (Hok "src/views/404.html"); [done..|].
  unfold viewFiles. repeat constructor.
Qed.

Lemma unknown_path_not_found_witness :
  ∃ res w',
    handleLocation 1 (sampleWorld (Some admin) "/settings" ∅ []) = (res, w')
    ∧ res ≠ OutOfFuel
    ∧ navigated [] (routes !! "/404") None
        (sampleWorld (Some admin) "/settings" ∅ []) w'
    ∧ (faultAt 0 (sampleWorld (Some admin) "/settings" ∅ []) = None
       → innerHTML w' = Html "src/views/404.html").
Proof.
  refine (unknown_path_not_found 0 (sampleWorld (Some admin) "/settings" ∅ [])
            eq_refl _).
  simpl. intros Hin.
  repeat (apply elem_of_cons in Hin as [Hin|Hin]; [discriminate Hin|]).
  apply elem_of_nil in Hin. exact Hin.
Defined.

(** X16. The router changes no data: in every run of [handleLocation]
    the session, the users and events of the store and the messages shown
    are as before, and none of the requests it has sent is a PATCH of an
    event or a query of the users. *)
Theorem handleLocation_changes_no_data n w :
  ∃ res w' rs,
    handleLocation (S (S (S n))) w = (res, w')
    ∧ res ≠ OutOfFuel
    ∧ localStorage w' = localStorage w
    ∧ users w' = users w
    ∧ events w' = events w
    ∧ alerts w' = alerts w
    ∧ requests w' = requests w ++ rs
    ∧ (∀ eventId body, PatchEvent eventId body ∉ rs)
    ∧ (∀ email password, GetUsers email password ∉ rs).
Proof.
  destruct (handleLocation_keeps n w)
    as (res & w' & Hrun & Hfuel & Hls & Hus & Hev & Hal & _ & _
        & (rs & Hreq & Hrs) & _).
  exists res, w', rs. repeat (split; [done|]).
  rewrite Forall_forall in Hrs.
  split; intros ? ? Hin; by destruct (Hrs _ Hin) as (v & ? & _).
Qed.

(** X17. After every run of [handleLocation] the body carries the
    dashboard-view class exactly when the path the browser ended on is one
    of the two dashboard paths, redirects included. *)
Theorem body_class_follows_path n w :
  ∃ res w',
    handleLocation (S (S (S n))) w = (res, w')
    ∧ res ≠ OutOfFuel
    ∧ (dashboardView w' = true
       ↔ pathname w' = "/admin-dashboard" ∨ pathname w' = "/visitor-dashboard").
Proof.
  destruct (handleLocation_keeps n w)
    as (res & w' & Hrun & Hfuel & _ & _ & _ & _ & Hdash & _).
  exists res, w'. split; [done|]. split; [done|].
  rewrite Hdash. unfold isDashboardPath.
  rewrite orb_true_iff, !String.eqb_eq. done.
Qed.

(** X18. After every run of [handleLocation], if the page has a
    navigation bar, its links are those of the session: Home always, Login
    and Register exactly when there is no session, the administrator's
    dashboard exactly for the role "administrator" and the visitor's
    exactly for the role "visitor".  Without a bar there is still none. *)
Theorem navbar_follows_session n w :
  ∃ res w',
    handleLocation (S (S (S n))) w = (res, w')
    ∧ res ≠ OutOfFuel
    ∧ (mainNav w = None → mainNav w' = None)
    ∧ (is_Some (mainNav w) →
       ∃ links,
         mainNav w' = Some links
         ∧ "/" ∈ links
         ∧ ("/login" ∈ links ↔ localStorage w !! USER_INFO_KEY = None)
         ∧ ("/register" ∈ links ↔ localStorage w !! USER_INFO_KEY = None)
         ∧ ("/admin-dashboard" ∈ links
            ↔ Session.role <$> localStorage w !! USER_INFO_KEY
              = Some "administrator")
         ∧ ("/visitor-dashboard" ∈ links
            ↔ Session.role <$> localStorage w !! USER_INFO_KEY
              = Some "visitor")).
Proof.
  destruct (handleLocation_keeps n w)
    as (res & w' & Hrun & Hfuel & _ & _ & _ & _ & _ & Hnav & _).
  exists res, w'. split; [done|]. split; [done|]. rewrite Hnav.
  split; [by intros ->|]. intros [links0 ->]. cbn.
  eexists. split; [reflexivity|].
  destruct (localStorage w !! USER_INFO_KEY) as [user|]; cbn.
  - destruct (String.eqb_spec (Session.role user) "administrator") as [Hr|Hr];
      [|destruct (String.eqb_spec (Session.role user) "visitor") as [Hr'|Hr']];
      rewrite ?Hr, ?Hr'; rewrite !elem_of_cons, !elem_of_nil;
      repeat split; intros; try done;
      repeat match goal with
             | H : _ ∨ _ |- _ => destruct H
             | H : Some _ = Some _ |- _ => injection H as H
             end; try done; try congruence; auto.
  - rewrite !elem_of_cons, !elem_of_nil.
    repeat split; intros; try done;
      repeat match goal with H : _ ∨ _ |- _ => destruct H end; try done; auto.
Qed.

(** X19. Dashboards are for their own role only, on every path and
    whatever fails: a run of [handleLocation] requests the administrator's
    dashboard view, or leaves its markup in #app-root where it was not
    before, only when the session's role is "administrator"; and likewise
    the visitor's only when the role is "visitor". *)
Theorem dashboards_for_own_role n w :
  ∃ res w' rs,
    handleLocation (S (S (S n))) w = (res, w')
    ∧ res ≠ OutOfFuel
    ∧ requests w' = requests w ++ rs
    ∧ ∀ view role,
        (view = "src/views/admin-dashboard.html" ∧ role = "administrator")
        ∨ (view = "src/views/visitor-dashboard.html" ∧ role = "visitor") →
        (GetView (Some view) ∈ rs →
           Session.role <$> localStorage w !! USER_INFO_KEY = Some role)
        ∧ (innerHTML w' = Html view →
             innerHTML w = Html view
             ∨ Session.role <$> localStorage w !! USER_INFO_KEY = Some role).
Proof.
  destruct (handleLocation_keeps n w)
    as (res & w' & Hrun & Hfuel & _ & _ & _ & _ & _ & _
        & (rs & Hreq & Hrs) & Hhtml & _).
  exists res, w', rs. repeat (split; [done|]).
  intros view role Hcase. split.
  - intros Hin. rewrite Forall_forall in Hrs.
    destruct (Hrs _ Hin) as (v & [= <-] & Hadmin & Hvisitor).
    destruct Hcase as [[-> ->] | [-> ->]]; auto.
  - intros Hview. rewrite Hview in Hhtml.
    destruct Hhtml as [<- | [Hbad | (src & [= <-] & _ & Hadmin & Hvisitor)]];
      [by left|discriminate Hbad|].
    right. destruct Hcase as [[-> ->] | [-> ->]]; auto.
Qed.

(** X20. From a root-level path, when the next two requests meet no fault,
    every run of [handleLocation] returns without an exception, #app-root
    holds the markup of one of the six views, and the logout button is in
    the document exactly when the browser is authenticated. *)
Theorem handleLocation_when_requests_succeed n w :
  rootLevel (pathname w) = true →
  faultAt 0 w = None → faultAt 1 w = None →
  ∃ w' src,
    handleLocation (S (S (S n))) w = (Return (), w')
    ∧ innerHTML w' = Html src
    ∧ src ∈ viewFiles
    ∧ (logoutBtn w' = true ↔ is_Some (localStorage w !! USER_INFO_KEY)).
Proof.
  intros _ Hf Hf1.
  destruct (handleLocation_keeps n w)
    as (res & w' & Hrun & Hfuel & _ & _ & _ & _ & _ & _ & _ & _ & Hok).
  destruct (Hok Hf Hf1) as (-> & Hbtn & src & Hin & Hhtml).
  exists w', src. repeat (split; [done|]).
  rewrite Hbtn. apply bool_decide_eq_true.
Qed.

Lemma handleLocation_when_requests_succeed_witness :
  ∃ w' src,
    handleLocation 3 (sampleWorld (Some visitor1) "/register" ∅ [])
    = (Return (), w')
    ∧ innerHTML w' = Html src
    ∧ src ∈ viewFiles
    ∧ (logoutBtn w' = true
       ↔ is_Some (localStorage (sampleWorld (Some visitor1) "/register" ∅ [])
                    !! USER_INFO_KEY)).
Proof.
  exact (handleLocation_when_requests_succeed 0
           (sampleWorld (Some visitor1) "/register" ∅ [])
           eq_refl eq_refl eq_refl).
Defined.

(** ** Logging out and logging in *)

(** X21. The logout button, from any page and any session: the session is
    removed and nothing else in localStorage, the browser goes to /login
    as its one new history entry, the only views requested are the login
    view and, if that fails, the not-found view, the bar, if there is
    one, shows the guest links, and the click handler returns. *)
Theorem logoutClick_ends_on_login n w :
  ∃ w' rs,
    logoutClick (S n) w = (Return (), w')
    ∧ localStorage w' = delete USER_INFO_KEY (localStorage w)
    ∧ pathname w' = "/login"
    ∧ history w' = history w ++ ["/login"]
    ∧ requests w' = requests w ++ GetView (Some "src/views/login.html") :: rs
    ∧ (rs = [] ∨ rs = [GetView (Some "src/views/404.html")])
    ∧ mainNav w' = ((λ _, ["/"; "/login"; "/register"]) <$> mainNav w)
    ∧ (faultAt 0 w = None → innerHTML w' = Html "src/views/login.html").
Proof.
  unfold logoutClick, navigateTo, mbind, M_bind, logOut, modify.
  cbv beta iota. rewrite renderNavbar_links. cbv beta iota.
  set (w1 := set_mainNav _ _).
  assert (localStorage w1 !! USER_INFO_KEY = None) as Hs
    by apply lookup_delete_eq.
  assert (mainNav w1 = ((λ _, ["/"; "/login"; "/register"]) <$> mainNav w))
    as Hnav1.
  { unfold w1. cbn. by rewrite lookup_delete_eq. }
  set (w2 := set_location "/login" w1).
  destruct (land_login n w2 Hs eq_refl) as (res & w3 & Hrun & Hfuel & Hnav).
  pose proof (handleLocation_routed (S n) w2) as Hinv.
  rewrite Hrun in Hinv. cbn [fst snd] in Hinv. specialize (Hinv Hfuel).
  destruct Hinv as (_ & _ & _ & _ & _ & Hbar & _).
  destruct Hnav as (Hhist & Hpath & Hls & (rs & Hreq & Hrs) & _ & _ & Hok).
  unfold navigateTo_with, detached, tryCatch, mbind, M_bind, modify.
  fold w2. rewrite Hrun.
  change (localStorage w2) with (localStorage w1) in Hbar.
  change (mainNav w2) with (mainNav w1) in Hbar.
  rewrite Hs, Hnav1 in Hbar.
  change (history w2) with (history w ++ ["/login"]) in Hhist.
  change (pathname w3 = "/login") in Hpath.
  change (localStorage w2) with (delete USER_INFO_KEY (localStorage w)) in Hls.
  change (requests w2) with (requests w) in Hreq.
  change (faultAt 0 w2) with (faultAt 0 w) in Hok.
  rewrite app_nil_r in Hhist.
  assert (mainNav w3 = ((λ _, ["/"; "/login"; "/register"]) <$> mainNav w))
    as Hbar' by (rewrite Hbar; by destruct (mainNav w)).
  assert (faultAt 0 w = None → innerHTML w3 = Html "src/views/login.html")
    as Hview.
  { intros Hf. apply (Hok "src/views/login.html"); [done..|].
    unfold viewFiles. repeat constructor. }
  destruct res as [[]|err|]; [| |done].
  - exists w3, rs. by repeat split.
  - eexists _, rs. split; [reflexivity|]. cbn. by repeat split.
Qed.

(** [navigateTo] where the handler settles: the facts of [navigated] and
    of [routed] together, for the world [navigateTo] started in. *)
Lemma navigateTo_settled fuel path w hops viewPath init :
  settles fuel hops viewPath init (set_location path w) →
  ∃ w',
    navigateTo fuel path w = (Return (), w')
    ∧ navigated (path :: hops) viewPath init w w'
    ∧ localStorage w' = localStorage w
    ∧ alerts w' = alerts w
    ∧ events w' = events w.
Proof.
  intros Hsettles. pose proof Hsettles as (res & w1 & Hrun & Hfuel & _).
  pose proof (handleLocation_routed fuel (set_location path w)) as Hinv.
  rewrite Hrun in Hinv. cbn [fst snd] in Hinv.
  destruct (Hinv Hfuel) as (Hls & _ & Hev & Hal & _).
  destruct (navigateTo_with_then (handleLocation fuel) path w hops viewPath
              init Hsettles) as (w' & Hnav & Hnavigated).
  exists w'. split; [exact Hnav|]. split; [done|].
  unfold navigateTo_with, detached, tryCatch, mbind, M_bind, modify in Hnav.
  rewrite Hrun in Hnav. destruct res as [[]|err|]; [| |done];
    injection Hnav as <-; by repeat split.
Qed.

Lemma handleLogin_accepts email password w u :
  urlPlain email = true → urlPlain password = true →
  faultAt 0 w = None →
  matchingUsers email (Some password) w = [u] →
  handleLogin email password w
  = (Return true,
     add_console "Login successful for user: "
       (set_localStorage
          <[USER_INFO_KEY :=
              Session.mk (User.id u) (User.email u) (User.role u)]>
          (sent (GetUsers email (Some password)) w))).
Proof.
  intros He Hp Hf Hm. unfold handleLogin.
  rewrite (loginQuery_plain _ _ He Hp). unfold tryCatch, mbind, M_bind.
  rewrite fetch_GetUsers_answer by done. cbn. by rewrite Hm.
Qed.

(** X22. Submitting the login form with an email and a password that are
    sent as typed and select exactly one user, whose role is
    "administrator" or "visitor", the query going through: the session of
    that user is stored, the browser goes to the dashboard of the role as
    its one new history entry, the requests sent start with the query and
    the request for the view of that dashboard, and no message is
    shown. *)
Theorem loginFormSubmit_opens_dashboard n w email password u d :
  urlPlain email = true → urlPlain password = true →
  faultAt 0 w = None →
  matchingUsers email (Some password) w = [u] →
  (User.role u = "administrator" ∧ d = "/admin-dashboard")
  ∨ (User.role u = "visitor" ∧ d = "/visitor-dashboard") →
  ∃ w' rs,
    loginFormSubmit (S n) email password w = (Return (), w')
    ∧ localStorage w'
      = <[USER_INFO_KEY := Session.mk (User.id u) (User.email u) (User.role u)]>
          (localStorage w)
    ∧ pathname w' = d
    ∧ history w' = history w ++ [d]
    ∧ alerts w' = alerts w
    ∧ requests w'
      = requests w
        ++ GetUsers email (Some password) :: GetView (routes !! d) :: rs.
Proof.
  intros He Hp Hf Hm Hrole.
  unfold loginFormSubmit. unfold mbind at 1. unfold M_bind at 1.
  rewrite (handleLogin_accepts _ _ _ _ He Hp Hf Hm).
  set (session := Session.mk (User.id u) (User.email u) (User.role u)).
  set (w1 := add_console _ _).
  assert (localStorage w1 !! USER_INFO_KEY = Some session) as Hs
    by apply lookup_insert_eq.
  unfold mbind, M_bind, getCurrentUser, get. rewrite Hs. cbn [roleOf].
  unfold mret, M_ret. cbv beta iota.
  assert ((if Session.role session =? "administrator" then "/admin-dashboard"
           else "/visitor-dashboard") = d) as ->
    by (by destruct Hrole as [[Hr ->] | [Hr ->]]; cbn; rewrite Hr).
  assert (roleDashboard (Session.role session) = Some d) as Hd
    by (by destruct Hrole as [[Hr ->] | [Hr ->]]; cbn; rewrite Hr).
  destruct (navigateTo_settled (S n) d w1 [] (routes !! d)
              (Some (dashboardInitializer d (Some session))))
    as (w' & -> & Hnav & Hls & Hal & _).
  { by apply (land_dashboard n (set_location d w1) session d). }
  destruct Hnav as (Hhist & Hpath & _ & (rs & Hreq & Hrs) & _).
  exists w', rs. split; [done|]. rewrite Hls, Hal, Hhist, Hpath, Hreq.
  cbn. rewrite <- app_assoc. by repeat split.
Qed.

Lemma loginFormSubmit_opens_dashboard_witness :
  ∃ w' rs,
    loginFormSubmit 1 "admin@events.com" "admin123"
      (sampleWorld None "/login" ∅ [])
    = (Return (), w')
    ∧ localStorage w'
      = <[USER_INFO_KEY := Session.mk (IdNum 1) "admin@events.com" "administrator"]>
          (localStorage (sampleWorld None "/login" ∅ []))
    ∧ pathname w' = "/admin-dashboard"
    ∧ history w' = history (sampleWorld None "/login" ∅ []) ++ ["/admin-dashboard"]
    ∧ alerts w' = alerts (sampleWorld None "/login" ∅ [])
    ∧ requests w'
      = requests (sampleWorld None "/login" ∅ [])
        ++ GetUsers "admin@events.com" (Some "admin123")
           :: GetView (routes !! "/admin-dashboard") :: rs.
Proof.
  exact (loginFormSubmit_opens_dashboard 0 (sampleWorld None "/login" ∅ [])
           "admin@events.com" "admin123" admin "/admin-dashboard"
           eq_refl eq_refl eq_refl eq_refl
           (or_introl (conj eq_refl eq_refl))).
Defined.

(** X23. Submitting the login form with an email and a password that are
    sent as typed, when the query fails or does not yield exactly one
    user: the message "Invalid credentials. Please try again." is shown,
    only the query is sent, and the session, the path and the history are
    as before. *)
Theorem loginFormSubmit_rejects fuel w email password :
  urlPlain email = true → urlPlain password = true →
  faultAt 0 w ≠ None
  ∨ length (matchingUsers email (Some password) w) ≠ 1%nat →
  ∃ w',
    loginFormSubmit fuel email password w = (Return (), w')
    ∧ alerts w' = alerts w ++ ["Invalid credentials. Please try again."]
    ∧ localStorage w' = localStorage w
    ∧ pathname w' = pathname w
    ∧ history w' = history w
    ∧ requests w' = requests w ++ [GetUsers email (Some password)].
Proof.
  intros He Hp Hfail. unfold loginFormSubmit, handleLogin.
  rewrite (loginQuery_plain _ _ He Hp). unfold tryCatch, mbind, M_bind.
  destruct (faultAt 0 w) as [f|] eqn:Hf.
  - unfold fetch. rewrite Hf. destruct f; cbn; by eexists.
  - rewrite fetch_GetUsers_answer by done. cbn.
    destruct Hfail as [?|Hlen]; [done|].
    destruct (matchingUsers email (Some password) w)
      as [|user [|user' rest]]; cbn; [by eexists|done|by eexists].
Qed.

Lemma loginFormSubmit_rejects_witness :
  ∃ w',
    loginFormSubmit 0 "admin@events.com" "admin124"
      (sampleWorld None "/login" ∅ [])
    = (Return (), w')
    ∧ alerts w'
      = alerts (sampleWorld None "/login" ∅ [])
        ++ ["Invalid credentials. Please try again."]
    ∧ localStorage w' = localStorage (sampleWorld None "/login" ∅ [])
    ∧ pathname w' = pathname (sampleWorld None "/login" ∅ [])
    ∧ history w' = history (sampleWorld None "/login" ∅ [])
    ∧ requests w'
      = requests (sampleWorld None "/login" ∅ [])
        ++ [GetUsers "admin@events.com" (Some "admin124")].
Proof.
  refine (loginFormSubmit_rejects 0 (sampleWorld None "/login" ∅ [])
            "admin@events.com" "admin124" eq_refl eq_refl (or_intror _)).
  simpl. lia.
Defined.

(** ** Loading a view *)

(** X24. When the request for a view fails (a fault, or a path that is
    not among the views), [loadView] asks for the not-found view next and
    puts the body of whatever answer it gets into #app-root, without
    looking at its status; it throws only when that second request is
    rejected, and then #app-root is as it was. *)
Theorem loadView_fallback viewPath w :
  faultAt 0 w ≠ None ∨ (∀ src, viewPath = Some src → src ∉ viewFiles) →
  ∃ res w',
    loadView viewPath w = (res, w')
    ∧ requests w'
      = requests w ++ [GetView viewPath; GetView (Some "src/views/404.html")]
    ∧ (faultAt 1 w = None →
       res = Return () ∧ innerHTML w' = Html "src/views/404.html")
    ∧ (faultAt 1 w = Some HttpError →
       res = Return () ∧ innerHTML w' = Unparsable)
    ∧ (faultAt 1 w = Some NetworkError →
       (∃ err, res = Throw err) ∧ innerHTML w' = innerHTML w).
Proof.
  intros Hfail.
  assert (∃ err w1,
            (loadView viewPath w
             = (response404 ← fetch (GetView (Some "src/views/404.html"));
                modify (set_innerHTML (body response404))) w1)
            ∧ requests w1 = requests w ++ [GetView viewPath]
            ∧ innerHTML w1 = innerHTML w
            ∧ faultAt 0 w1 = faultAt 1 w
            ∧ w1 = add_console err (sent (GetView viewPath) w))
    as (err & w1 & -> & Hreq & Hhtml & Hf1 & Hw1).
  { unfold loadView, tryCatch. unfold mbind at 1. unfold M_bind at 1.
    destruct (fetch_view_cases viewPath w)
      as [[Hf ->]|[[Hno ->]|(src & -> & Hin & Hrun)]].
    - eexists _, _. split; [by rewrite <- routes_404|].
      by rewrite faultAt_add_console, faultAt_sent.
    - eexists _, _. cbn -[routes]. split; [by rewrite <- routes_404|].
      by rewrite faultAt_add_console, faultAt_sent.
    - exfalso. destruct Hfail as [Hf|Hno]; [|by apply (Hno src)].
      unfold fetch in Hrun. by destruct (faultAt 0 w) as [[]|]. }
  unfold mbind, M_bind, fetch, modify. rewrite Hf1.
  destruct (faultAt 1 w) as [[]|]; cbn; eexists _, _;
    (split; [reflexivity|]); cbn; rewrite Hreq, <- ?app_assoc; cbn;
    repeat split; try done; intros; try done; eauto.
Qed.

Lemma loadView_fallback_witness :
  ∃ res w',
    loadView (Some "src/views/home.html")
      (sampleWorld None "/" ∅ [Some HttpError]) = (res, w')
    ∧ requests w'
      = requests (sampleWorld None "/" ∅ [Some HttpError])
        ++ [GetView (Some "src/views/home.html");
            GetView (Some "src/views/404.html")]
    ∧ (faultAt 1 (sampleWorld None "/" ∅ [Some HttpError]) = None →
       res = Return () ∧ innerHTML w' = Html "src/views/404.html")
    ∧ (faultAt 1 (sampleWorld None "/" ∅ [Some HttpError]) = Some HttpError →
       res = Return () ∧ innerHTML w' = Unparsable)
    ∧ (faultAt 1 (sampleWorld None "/" ∅ [Some HttpError]) = Some NetworkError →
       (∃ err, res = Throw err)
       ∧ innerHTML w' = innerHTML (sampleWorld None "/" ∅ [Some HttpError])).
Proof.
  refine (loadView_fallback (Some "src/views/home.html")
            (sampleWorld None "/" ∅ [Some HttpError]) (or_introl _)).
  intros Hnone. discriminate Hnone.
Defined.
